(** * Todu: task API, checklist progress, timeline cells and user colours

    A shallow embedding of the task route handlers ([GET] and [POST] of
    [/api/tasks]), of the progress shown by the task dialog and the
    all-tasks view, of the day-cell filters of the timeline views and of
    [getUserColor], with the properties the specification states about
    them. *)

From Stdlib Require Import ZArith List String Ascii Bool Lia Permutation.
From Stdlib Require Import Sorted.
From Stdlib Require Import Floats.SpecFloat.
Import ListNotations.
Set Warnings "-register-all".
Open Scope string_scope.
Open Scope list_scope.
Open Scope Z_scope.

(** ** JavaScript numbers

    A JavaScript number is an IEEE 754 binary64 value.  [spec_float] at
    precision 53 and maximal exponent 1024 is that format, with
    round-to-nearest-even on every operation. *)
Module JS.

Definition number := spec_float.

Definition prec : Z := 53.
Definition emax : Z := 1024.

(** The number denoted by an integer literal or an array length. *)
Definition of_Z (z : Z) : number := binary_normalize prec emax z 0 false.

Definition div (x y : number) : number := SFdiv prec emax x y.
Definition mul (x y : number) : number := SFmul prec emax x y.

(** [x > y], [x >= y], [x <= y] and [x === y] on numbers. *)
Definition gt (x y : number) : bool := SFltb y x.
Definition ge (x y : number) : bool := SFleb y x.
Definition le (x y : number) : bool := SFleb x y.
Definition strict_eq (x y : number) : bool := SFeqb x y.

(** [Math.round]: the integer closest to [x], a tie going towards
    plus infinity.  A finite [x] is [(-1)^s * m * 2^e]; for [e < 0] the
    result is [floor ((2 * x + 1) / 2)], computed on the exact value. *)
Definition Math_round (x : number) : number :=
  match x with
  | S754_finite s m e =>
      match e with
      | Zneg p =>
          let d := Z.pow_pos 2 p in
          let n := if s then Z.neg m else Z.pos m in
          binary_normalize prec emax ((2 * n + d) / (2 * d)) 0 s
      | _ => x
      end
  | _ => x
  end.

(** Truthiness of a possibly undefined number: [undefined], [NaN], [0]
    and [-0] are falsy. *)
Definition truthy (x : option number) : bool :=
  match x with
  | Some (S754_finite _ _ _) | Some (S754_infinity _) => true
  | _ => false
  end.

(** [x || 0] for a possibly undefined number [x]. *)
Definition or_zero (x : option number) : number :=
  match x with
  | Some v => if truthy x then v else of_Z 0
  | None => of_Z 0
  end.

(** The integer an integral number stands for. *)
Definition to_Z (x : number) : option Z :=
  match x with
  | S754_zero _ => Some 0
  | S754_finite s m e =>
      let n := if s then Z.neg m else Z.pos m in
      match e with
      | Zneg p =>
          let d := Z.pow_pos 2 p in
          if n mod d =? 0 then Some (n / d) else None
      | _ => Some (n * 2 ^ e)
      end
  | _ => None
  end.

(** [ToInt32]: reduction modulo 2^32 into the signed 32-bit range, the
    conversion every bitwise operator applies to its operands. *)
Definition toInt32 (z : Z) : Z := (z + 2 ^ 31) mod 2 ^ 32 - 2 ^ 31.

(** [a << n] on a 32-bit operand. *)
Definition shl32 (a n : Z) : Z := toInt32 (Z.shiftl (toInt32 a) (n mod 32)).

(** [a & b]. *)
Definition and32 (a b : Z) : Z := toInt32 (Z.land (toInt32 a) (toInt32 b)).

End JS.

(** ** Checklist progress (task dialog and all-tasks view) *)

Record ChecklistItem := mkItem {
  item_id : string;
  label : string;
  checked : bool
}.

(** [checklistItems.filter((item) => item.checked).length] *)
Definition checkedCount (items : list ChecklistItem) : Z :=
  Z.of_nat (List.length (filter checked items)).

Definition itemCount (items : list ChecklistItem) : Z :=
  Z.of_nat (List.length items).

(** [Math.round((checked / total) * 100)], the expression both views use. *)
Definition percentOfChecklist (items : list ChecklistItem) : JS.number :=
  JS.Math_round
    (JS.mul (JS.div (JS.of_Z (checkedCount items)) (JS.of_Z (itemCount items)))
            (JS.of_Z 100)).

(** [hasChecklist] and [checklistProgress] of [TaskDialog];
    [watchedPercent] is the form's percent field, possibly undefined. *)
Definition hasChecklist (items : list ChecklistItem) : bool :=
  0 <? itemCount items.

Definition checklistProgress (items : list ChecklistItem)
    (watchedPercent : option JS.number) : JS.number :=
  if hasChecklist items then percentOfChecklist items
  else JS.or_zero watchedPercent.

(** The integer nearest to [a / b], a tie going up ([b] positive): the
    "round(100 x checked / total)" of the specification is
    [roundHalfUp (100 * checked) total]. *)
Definition roundHalfUp (a b : Z) : Z := (2 * a + b) / (2 * b).

(** The progress computed from [c] checked items out of [n]. *)
Definition progressOf (c n : nat) : JS.number :=
  JS.Math_round
    (JS.mul (JS.div (JS.of_Z (Z.of_nat c)) (JS.of_Z (Z.of_nat n)))
            (JS.of_Z 100)).

(** [progressOf c n] is the integer [roundHalfUp (100 * c) n]. *)
Definition progressExact (c n : nat) : bool :=
  match JS.to_Z (progressOf c n) with
  | Some r => r =? roundHalfUp (100 * Z.of_nat c) (Z.of_nat n)
  | None => false
  end.

(** [f c n] holds for every [n] from 1 to [bound] and every [c] from 0
    to [n]. *)
Definition tableUpTo (f : nat -> nat -> bool) (bound : nat) : bool :=
  forallb (fun n => forallb (fun c => f c n) (seq 0 (S n))) (seq 1 bound).

(** 100 x [c] / [n] lies halfway between two integers. *)
Definition isTie (c n : nat) : bool :=
  ((200 * Z.of_nat c) mod Z.of_nat n =? 0)
  && Z.odd (200 * Z.of_nat c / Z.of_nat n).

Definition progressExactOffTies (c n : nat) : bool :=
  isTie c n || progressExact c n.

(** The checklists of at most 100 items whose ratio, multiplied by 100
    in double precision, falls below the half it stands for: 23 of 40 and
    46 of 80, where [(c / n) * 100] is 57.49999999999999. *)
Definition roundingSlip (c n : Z) : bool :=
  ((c =? 23) && (n =? 40)) || ((c =? 46) && (n =? 80)).

(** [progressOf c n] is [roundHalfUp (100 * c) n], or 57 at a slip. *)
Definition progressExactButSlips (c n : nat) : bool :=
  match JS.to_Z (progressOf c n) with
  | Some r =>
      r =? (if roundingSlip (Z.of_nat c) (Z.of_nat n) then 57
            else roundHalfUp (100 * Z.of_nat c) (Z.of_nat n))
  | None => false
  end.

(** The specification's clamping of a percent into [0, 100]. *)
Definition clampPercent (p : JS.number) : JS.number :=
  if JS.gt (JS.of_Z 0) p then JS.of_Z 0
  else if JS.gt p (JS.of_Z 100) then JS.of_Z 100
  else p.

(** ** Tasks

    The fields of a task document as the handlers and the views use
    them.  Instants ([startAt], [dueAt]) are milliseconds since the epoch;
    [order] is an integer position, far below 2^53, so that [order + 1]
    is exact; [percent] is an arbitrary number. *)

Inductive Status := backlog | in_progress | done.
Inductive Priority := low | med | high.

Definition Status_eqb (a b : Status) : bool :=
  match a, b with
  | backlog, backlog | in_progress, in_progress | done, done => true
  | _, _ => false
  end.

Record Task := mkTask {
  _id : Z;
  userId : string;
  title : string;
  description : option string;
  status : Status;
  priority : Priority;
  order : Z;
  tags : list string;
  startAt : option Z;
  dueAt : option Z;
  items : list ChecklistItem;
  percent : JS.number
}.

(** The tasks of user [u] in status column [s]. *)
Definition inColumn (u : string) (s : Status) (t : Task) : bool :=
  String.eqb (userId t) u && Status_eqb (status t) s.

Definition column (u : string) (s : Status) (ts : list Task) : list Task :=
  filter (inColumn u s) ts.

(** *** Progress bars of the all-tasks view

    [task.items.length > 0 && ...] renders the checklist bar;
    [task.items.length === 0 && task.percent > 0 && ...] renders the
    percent bar.  [None] stands for a bar that is not rendered. *)
Definition checklistBar (task : Task) : option JS.number :=
  if 0 <? itemCount (items task)
  then Some (percentOfChecklist (items task))
  else None.

Definition percentBar (task : Task) : option JS.number :=
  if (itemCount (items task) =? 0) && JS.gt (percent task) (JS.of_Z 0)
  then Some (percent task)
  else None.

(** *** Progress bar of a task in a week cell of the timeline

    [task.percent > 0 && <Progress value={task.percent} />], in the week
    view of the first timeline component and in the personal and global
    week views of the second; the checklist is not consulted. *)
Definition timelineBar (task : Task) : option JS.number :=
  if JS.gt (percent task) (JS.of_Z 0) then Some (percent task) else None.

(** ** Sessions *)

Record SessionUser := mkUser {
  user_id : option string;
  user_name : option string
}.

Record Session := mkSession { user : option SessionUser }.

(** [session?.user?.id], with the falsy results ([undefined] and the
    empty string) mapped to [None]: the handlers only test
    [!session?.user?.id]. *)
Definition sessionUserId (session : option Session) : option string :=
  match session with
  | Some {| user := Some {| user_id := Some i |} |} =>
      if String.eqb i "" then None else Some i
  | _ => None
  end.

(** ** Responses and thrown errors *)

Record ZodIssue := mkIssue { path : string; message : string }.

Inductive ResponseBody :=
| ErrorBody (error : string)
| ValidationBody (error : string) (details : list ZodIssue)
| TaskBody (task : Task)
| TasksBody (tasks : list Task).

Record Response := json { body : ResponseBody; status_code : Z }.

(** The tasks a response carries. *)
Definition responseTasks (r : Response) : list Task :=
  match body r with
  | TasksBody l => l
  | TaskBody t => [t]
  | _ => []
  end.

Inductive Exn :=
| ZodError (issues : list ZodIssue)
| SyntaxError
| MongoError.

(** ** The document store

    The task collection in insertion order, the next object id, and a
    trace of the operations issued against the store (most recent
    first). *)

Inductive DbOp := OpConnect | OpFind | OpFindOne | OpCreate.

Record DB := mkDB {
  tasks : list Task;
  nextId : Z;
  ops : list DbOp
}.

Definition emptyDB : DB := mkDB [] 0 [].

(** The store after the operations [ops'] were issued and traced. *)
Definition logged (ops' : list DbOp) (db : DB) : DB :=
  mkDB (tasks db) (nextId db) (ops' ++ ops db).

(** ** Handler monad: store passing with exceptions *)

Inductive Result (A : Type) :=
| Ok (a : A)
| Throw (e : Exn).
Arguments Ok {A} a.
Arguments Throw {A} e.

Definition M (A : Type) : Type := DB -> Result A * DB.

Definition ret {A} (a : A) : M A := fun db => (Ok a, db).

Definition bind {A B} (m : M A) (k : A -> M B) : M B :=
  fun db =>
    match m db with
    | (Ok a, db') => k a db'
    | (Throw e, db') => (Throw e, db')
    end.

Notation "x <- m ;; k" := (bind m (fun x => k))
  (at level 61, m at next level, right associativity).

(** [try { m } catch (error) { return h error }]: both route handlers
    wrap their whole body this way, and their [catch] blocks only build
    a response. *)
Definition try_catch (m : M Response) (h : Exn -> Response)
  : DB -> Response * DB :=
  fun db =>
    match m db with
    | (Ok r, db') => (r, db')
    | (Throw e, db') => (h e, db')
    end.

Definition liftResult {A} (r : Result A) : M A := fun db => (r, db).

Definition logOp (op : DbOp) : M unit :=
  fun db => (Ok tt, mkDB (tasks db) (nextId db) (op :: ops db)).

(** [await connectDB()] *)
Definition connectDB : M unit := logOp OpConnect.

(** ** Strings: the operations the search uses

    Strings are sequences of code units below 256, the first 256 code
    points of Unicode.  Among them [toLowerCase] changes the letters
    [A]-[Z] (65 to 90) and the capital letters 192 to 222 of the Latin-1
    supplement, the multiplication sign 215 apart, each to the code unit
    32 above it. *)

Definition lowerChar (c : ascii) : ascii :=
  let n := nat_of_ascii c in
  if (((65 <=? n) && (n <=? 90))
      || ((192 <=? n) && (n <=? 222) && negb (n =? 215)))%nat
  then ascii_of_nat (n + 32) else c.

Fixpoint toLowerCase (s : string) : string :=
  match s with
  | EmptyString => EmptyString
  | String c r => String (lowerChar c) (toLowerCase r)
  end.

(** [s.startsWith(q)] *)
Fixpoint startsWith (q s : string) : bool :=
  match q, s with
  | EmptyString, _ => true
  | String a q', String b s' => Ascii.eqb a b && startsWith q' s'
  | String _ _, EmptyString => false
  end.

(** [s.includes(q)]: [q] occurs in [s] at some position. *)
Fixpoint includes (s q : string) : bool :=
  startsWith q s ||
  match s with
  | EmptyString => false
  | String _ s' => includes s' q
  end.

(** A non-empty string is truthy. *)
Definition nonEmpty (s : string) : bool := negb (String.eqb s "").

(** [x || undefined] for the result of [searchParams.get]. *)
Definition orUndefined (x : option string) : option string :=
  match x with
  | Some s => if nonEmpty s then Some s else None
  | None => None
  end.

(** [searchParams.get(name)]: the first value given for [name]. *)
Fixpoint searchParams_get (params : list (string * string)) (name : string)
  : option string :=
  match params with
  | [] => None
  | (k, v) :: rest =>
      if String.eqb k name then Some v else searchParams_get rest name
  end.

(** ** Validation schemas ([lib/validations]) *)

Definition parseStatus (s : string) : option Status :=
  if String.eqb s "backlog" then Some backlog
  else if String.eqb s "in_progress" then Some in_progress
  else if String.eqb s "done" then Some done
  else None.

Definition parsePriority (s : string) : option Priority :=
  if String.eqb s "low" then Some low
  else if String.eqb s "med" then Some med
  else if String.eqb s "high" then Some high
  else None.

(** The object [GET] hands to [getTasksQuerySchema.parse], and the parsed
    query it reads back. *)
Record RawQuery := mkRawQuery {
  raw_status : option string;
  raw_q : option string;
  raw_from : option string;
  raw_to : option string
}.

Record Query := mkQuery {
  q_status : option Status;
  q_q : option string;
  q_from : option Z;
  q_to : option Z
}.

(** The JSON body of a task-creation request: every field may be absent. *)
Record TaskInput := mkInput {
  in_title : option string;
  in_description : option string;
  in_status : option string;
  in_priority : option string;
  in_tags : option (list string);
  in_startAt : option string;
  in_dueAt : option string;
  in_items : option (list ChecklistItem);
  in_percent : option JS.number
}.

(** What [taskSchema.parse] returns: the fields of the task to create. *)
Record TaskData := mkData {
  d_title : string;
  d_description : option string;
  d_status : Status;
  d_priority : Priority;
  d_tags : list string;
  d_startAt : option Z;
  d_dueAt : option Z;
  d_items : list ChecklistItem;
  d_percent : JS.number
}.

(** An optional field checked by [check]: absent is fine, present must
    parse; a failure is reported under the field's path. *)
Definition optionalField {A B} (field : string) (msg : string)
    (check : A -> option B) (x : option A) : list ZodIssue * option B :=
  match x with
  | None => ([], None)
  | Some a =>
      match check a with
      | Some b => ([], Some b)
      | None => ([mkIssue field msg], None)
      end
  end.

Definition withDefault {A} (d : A) (x : option A) : A :=
  match x with Some a => a | None => d end.

Definition strLen (s : string) : Z := Z.of_nat (String.length s).

(** The object [GET] builds from the URL's search parameters:
    [{ status: searchParams.get('status') || undefined, q: ..., from: ...,
       to: ... }].  Parameters of any other name are not read. *)
Definition rawQueryOf (searchParams : list (string * string)) : RawQuery :=
  mkRawQuery (orUndefined (searchParams_get searchParams "status"))
             (orUndefined (searchParams_get searchParams "q"))
             (orUndefined (searchParams_get searchParams "from"))
             (orUndefined (searchParams_get searchParams "to")).

Section Api.

(** The instant a date string denotes, when it denotes one. *)
Variable parseDate : string -> option Z.

(** The store's regular-expression search with option [i]: a pattern
    either is rejected or yields a predicate on subject strings. *)
Variable regex_i : string -> option (string -> bool).

(** Modelled from the spec: [getTasksQuerySchema] of [lib/validations],
    whose source is not available.  The query parameters are
    "status, free-text search, date-range from/to"; [status] is one of the
    three column names, [from] and [to] are dates, and "malformed or
    out-of-range input" is a validation failure.  The issues found, and
    the query read back when there are none. *)
Definition getTasksQuerySchema_issues (raw : RawQuery) : list ZodIssue :=
  fst (optionalField "status" "Invalid enum value" parseStatus
         (raw_status raw))
  ++ fst (optionalField "from" "Invalid date" parseDate (raw_from raw))
  ++ fst (optionalField "to" "Invalid date" parseDate (raw_to raw)).

(** Modelled from the spec: the query [getTasksQuerySchema] returns for
    a valid input, every parameter optional. *)
Definition getTasksQuerySchema_output (raw : RawQuery) : Query :=
  mkQuery
    (snd (optionalField "status" "Invalid enum value" parseStatus
            (raw_status raw)))
    (raw_q raw)
    (snd (optionalField "from" "Invalid date" parseDate (raw_from raw)))
    (snd (optionalField "to" "Invalid date" parseDate (raw_to raw))).

(** Modelled from the spec: [getTasksQuerySchema.parse], which throws a
    validation error carrying the issues when there are any. *)
Definition getTasksQuerySchema_parse (raw : RawQuery) : Result Query :=
  match getTasksQuerySchema_issues raw with
  | [] => Ok (getTasksQuerySchema_output raw)
  | issues => Throw (ZodError issues)
  end.

(** Modelled from the spec: "manual percent (0-100)", the dialog's
    [z.number().min(0).max(100)]. *)
Definition percentInRange (p : JS.number) : option JS.number :=
  if JS.ge p (JS.of_Z 0) && JS.le p (JS.of_Z 100) then Some p else None.

(** Modelled from the spec: the server's [taskSchema] of
    [lib/validations], whose source is not available.  Field
    constraints follow the schema of the same name in the task dialog
    (title of 3 to 120 characters, description of at most 2000, percent
    between 0 and 100); the defaults follow the spec: "the created task's
    status defaults to backlog", and a task created from a title and a
    status has "percent: 0, tags: []". *)
Definition taskSchema_issues (input : TaskInput) : list ZodIssue :=
  match in_title input with
  | None => [mkIssue "title" "Required"]
  | Some t =>
      if strLen t <? 3
      then [mkIssue "title" "Title must be at least 3 characters"]
      else if 120 <? strLen t
      then [mkIssue "title" "Title must be less than 120 characters"]
      else []
  end
  ++ match in_description input with
     | Some d =>
         if 2000 <? strLen d
         then [mkIssue "description"
                 "Description must be less than 2000 characters"]
         else []
     | None => []
     end
  ++ fst (optionalField "status" "Invalid enum value" parseStatus
            (in_status input))
  ++ fst (optionalField "priority" "Invalid enum value" parsePriority
            (in_priority input))
  ++ fst (optionalField "startAt" "Invalid date" parseDate
            (in_startAt input))
  ++ fst (optionalField "dueAt" "Invalid date" parseDate (in_dueAt input))
  ++ fst (optionalField "percent" "Number must be between 0 and 100"
            percentInRange (in_percent input)).

(** Modelled from the spec: the data [taskSchema] returns for a valid
    payload, with the defaults the spec states for absent fields. *)
Definition taskSchema_output (input : TaskInput) : TaskData :=
  mkData
    (withDefault "" (in_title input))
    (in_description input)
    (withDefault backlog
       (snd (optionalField "status" "Invalid enum value" parseStatus
               (in_status input))))
    (withDefault med
       (snd (optionalField "priority" "Invalid enum value" parsePriority
               (in_priority input))))
    (withDefault [] (in_tags input))
    (snd (optionalField "startAt" "Invalid date" parseDate
            (in_startAt input)))
    (snd (optionalField "dueAt" "Invalid date" parseDate (in_dueAt input)))
    (withDefault [] (in_items input))
    (withDefault (JS.of_Z 0)
       (snd (optionalField "percent" "Number must be between 0 and 100"
               percentInRange (in_percent input)))).

(** Modelled from the spec: [taskSchema.parse], which throws a validation
    error carrying the issues when there are any. *)
Definition taskSchema_parse (input : TaskInput) : Result TaskData :=
  match taskSchema_issues input with
  | [] => Ok (taskSchema_output input)
  | issues => Throw (ZodError issues)
  end.

(** ** Queries against the task collection *)

Inductive TextField := f_title | f_description.
Inductive DateField := f_startAt | f_dueAt.

(** The filter documents the handlers build.  A filter object is the
    conjunction of its keys. *)
Inductive Cond :=
| UserIdIs (u : string)
| StatusIs (s : Status)
| RegexI (f : TextField) (pattern : string)
| Gte (f : DateField) (v : Z)
| Lte (f : DateField) (v : Z)
| OrC (cs : list Cond)
| AndC (cs : list Cond).

Definition Filter := list Cond.

Definition textOf (f : TextField) (t : Task) : option string :=
  match f with
  | f_title => Some (title t)
  | f_description => description t
  end.

Definition dateOf (f : DateField) (t : Task) : option Z :=
  match f with
  | f_startAt => startAt t
  | f_dueAt => dueAt t
  end.

(** A condition on a field the document lacks does not match. *)
Fixpoint matches (c : Cond) (t : Task) : bool :=
  match c with
  | UserIdIs u => String.eqb (userId t) u
  | StatusIs s => Status_eqb (status t) s
  | RegexI f pattern =>
      match regex_i pattern, textOf f t with
      | Some search, Some subject => search subject
      | _, _ => false
      end
  | Gte f v => match dateOf f t with Some d => v <=? d | None => false end
  | Lte f v => match dateOf f t with Some d => d <=? v | None => false end
  | OrC cs => existsb (fun c' => matches c' t) cs
  | AndC cs => forallb (fun c' => matches c' t) cs
  end.

(** Every pattern of the filter is accepted by the engine; the store
    rejects the whole query otherwise. *)
Fixpoint accepted (c : Cond) : bool :=
  match c with
  | RegexI _ pattern =>
      match regex_i pattern with Some _ => true | None => false end
  | OrC cs | AndC cs => forallb accepted cs
  | _ => true
  end.

Definition matchesAll (filter : Filter) (t : Task) : bool :=
  forallb (fun c => matches c t) filter.

(** [status] is stored as its name; ascending order on the names is
    [backlog], [done], [in_progress]. *)
Definition statusRank (s : Status) : Z :=
  match s with backlog => 0 | done => 1 | in_progress => 2 end.

(** [a] may stay before [b] under [.sort({ status: 1, order: 1 })]. *)
Definition byStatusThenOrder (a b : Task) : bool :=
  (statusRank (status a) <? statusRank (status b))
  || ((statusRank (status a) =? statusRank (status b))
      && (order a <=? order b)).

Fixpoint insertSorted (le : Task -> Task -> bool) (x : Task)
    (l : list Task) : list Task :=
  match l with
  | [] => [x]
  | y :: l' => if le x y then x :: l else y :: insertSorted le x l'
  end.

Definition sortBy (le : Task -> Task -> bool) (l : list Task) : list Task :=
  fold_right (insertSorted le) [] l.

(** [Task.find(filter).sort({ status: 1, order: 1 }).lean()] *)
Definition Task_find_sorted (filter : Filter) : M (list Task) :=
  _ <- logOp OpFind ;;
  fun db =>
    if forallb accepted filter
    then (Ok (sortBy byStatusThenOrder (List.filter (matchesAll filter) (tasks db))), db)
    else (Throw MongoError, db).

(** The first document of greatest [order] in a list. *)
Fixpoint maxByOrder (l : list Task) : option Task :=
  match l with
  | [] => None
  | x :: l' =>
      match maxByOrder l' with
      | Some y => if order x <? order y then Some y else Some x
      | None => Some x
      end
  end.

(** [Task.findOne(filter, { order: 1 }).sort({ order: -1 })] *)
Definition Task_findOne_lastByOrder (filter : Filter) : M (option Task) :=
  _ <- logOp OpFindOne ;;
  fun db =>
    if forallb accepted filter
    then (Ok (maxByOrder (List.filter (matchesAll filter) (tasks db))), db)
    else (Throw MongoError, db).

(** [Task.create({ ...taskData, userId, order })]: the document gets the
    next object id and is appended to the collection. *)
Definition Task_create (taskData : TaskData) (uid : string) (ord : Z)
  : M Task :=
  _ <- logOp OpCreate ;;
  fun db =>
    let task :=
      mkTask (nextId db) uid (d_title taskData) (d_description taskData)
             (d_status taskData) (d_priority taskData) ord
             (d_tags taskData) (d_startAt taskData) (d_dueAt taskData)
             (d_items taskData) (d_percent taskData) in
    (Ok task, mkDB (tasks db ++ [task]) (nextId db + 1) (ops db)).

(** ** The route handlers of [/api/tasks] *)

Definition unauthorized : Response := json (ErrorBody "Unauthorized") 401.

Definition internalError : Response :=
  json (ErrorBody "Internal server error") 500.

(** The filter [GET] assembles from the session's user id and the
    parsed query. *)
Definition getFilter (uid : string) (query : Query) : Filter :=
  [UserIdIs uid]
  ++ match q_status query with
     | Some s => [StatusIs s]
     | None => []
     end
  ++ match orUndefined (q_q query) with
     | Some q => [OrC [RegexI f_title q; RegexI f_description q]]
     | None => []
     end
  ++ match q_from query, q_to query with
     | None, None => []
     | from, to =>
         [AndC (match from with
                | Some v => [OrC [Gte f_startAt v; Gte f_dueAt v]]
                | None => []
                end
                ++ match to with
                   | Some v => [OrC [Lte f_startAt v; Lte f_dueAt v]]
                   | None => []
                   end)]
     end.

Definition GET (session : option Session)
    (searchParams : list (string * string)) : DB -> Response * DB :=
  try_catch
    (match sessionUserId session with
     | None => ret unauthorized
     | Some uid =>
         query <- liftResult (getTasksQuerySchema_parse
                                (rawQueryOf searchParams)) ;;
         _ <- connectDB ;;
         found <- Task_find_sorted (getFilter uid query) ;;
         ret (json (TasksBody found) 200)
     end)
    (fun _ => internalError).

(** [requestBody] is the request's body as [request.json()] reads it;
    [None] stands for a body that is not JSON, on which it throws. *)
Definition POST (session : option Session) (requestBody : option TaskInput)
  : DB -> Response * DB :=
  try_catch
    (match sessionUserId session with
     | None => ret unauthorized
     | Some uid =>
         input <- liftResult (match requestBody with
                              | Some b => Ok b
                              | None => Throw SyntaxError
                              end) ;;
         taskData <- liftResult (taskSchema_parse input) ;;
         _ <- connectDB ;;
         lastTask <- Task_findOne_lastByOrder
                       [UserIdIs uid; StatusIs (d_status taskData)] ;;
         let ord := match lastTask with
                    | Some l => order l + 1
                    | None => 0
                    end in
         task <- Task_create taskData uid ord ;;
         ret (json (TaskBody task) 201)
     end)
    (fun error =>
       match error with
       | ZodError issues => json (ValidationBody "Validation error" issues) 400
       | _ => internalError
       end).

End Api.

(** [l] without its first element satisfying [p]. *)
Fixpoint removeFirst (p : Task -> bool) (l : list Task) : list Task :=
  match l with
  | [] => []
  | x :: l' => if p x then l' else x :: removeFirst p l'
  end.

(** Modelled from the spec: the effect of [DELETE /api/tasks/:id] on the
    collection; the route handler's source is not available.  "Deleting a
    task removes it from subsequent list queries for that user and does
    not affect other users' tasks", and "all task endpoints ... scope
    queries to the session's user id": the document with the given id is
    removed when it belongs to the requesting user. *)
Definition deleteTask (uid : string) (id : Z) (db : DB) : DB :=
  mkDB (removeFirst (fun t => (_id t =? id) && String.eqb (userId t) uid)
          (tasks db))
       (nextId db) (ops db).

Definition setOrder (t : Task) (o : Z) : Task :=
  mkTask (_id t) (userId t) (title t) (description t) (status t)
         (priority t) o (tags t) (startAt t) (dueAt t) (items t) (percent t).

Definition setStatus (t : Task) (s : Status) : Task :=
  mkTask (_id t) (userId t) (title t) (description t) s
         (priority t) (order t) (tags t) (startAt t) (dueAt t) (items t)
         (percent t).

Fixpoint indexOf (id : Z) (ids : list Z) : option nat :=
  match ids with
  | [] => None
  | x :: r =>
      if x =? id then Some O
      else match indexOf id r with Some i => Some (S i) | None => None end
  end.

(** The position of [id] in [ids], 0 when it does not occur. *)
Definition positionOf (ids : list Z) (id : Z) : nat :=
  match indexOf id ids with Some i => i | None => O end.

(** Modelled from the spec: the board's reordering of a column, whose
    source is not available.  "Reordering within a column
    renumbers the order field contiguously from zero": [ids] lists the
    column's task ids in their new arrangement, and every task of the
    column gets its position in [ids] as its order. *)
Definition reorderColumn (uid : string) (s : Status) (ids : list Z)
    (ts : list Task) : list Task :=
  map (fun t =>
         if inColumn uid s t
         then match indexOf (_id t) ids with
              | Some i => setOrder t (Z.of_nat i)
              | None => t
              end
         else t) ts.

(** ** The all-tasks view: filtering and local updates *)

Definition statusName (s : Status) : string :=
  match s with
  | backlog => "backlog"
  | in_progress => "in_progress"
  | done => "done"
  end.

Definition priorityName (p : Priority) : string :=
  match p with low => "low" | med => "med" | high => "high" end.

(** The predicate of the search filter:
    [task.title.toLowerCase().includes(searchQuery.toLowerCase()) ||
     (task.description && task.description.toLowerCase().includes(...))] *)
Definition searchMatches (searchQuery : string) (task : Task) : bool :=
  includes (toLowerCase (title task)) (toLowerCase searchQuery)
  || match description task with
     | Some d =>
         nonEmpty d && includes (toLowerCase d) (toLowerCase searchQuery)
     | None => false
     end.

(** The filtering effect of [AllTasksView]. *)
Definition filterTasks (ts : list Task)
    (searchQuery statusFilter priorityFilter : string) : list Task :=
  let filtered := ts in
  let filtered :=
    if nonEmpty searchQuery
    then filter (searchMatches searchQuery) filtered else filtered in
  let filtered :=
    if negb (String.eqb statusFilter "all")
    then filter (fun t => String.eqb (statusName (status t)) statusFilter)
           filtered
    else filtered in
  let filtered :=
    if negb (String.eqb priorityFilter "all")
    then filter (fun t => String.eqb (priorityName (priority t))
                            priorityFilter) filtered
    else filtered in
  filtered.

(** The state update of [handleTaskDelete] after a successful response:
    [prevTasks.filter((t) => t._id !== taskId)]. *)
Definition handleTaskDelete_update (taskId : Z) (prevTasks : list Task)
  : list Task :=
  filter (fun t => negb (_id t =? taskId)) prevTasks.

(** The state update of [handleStatusChange] after a successful response:
    [prevTasks.map((t) => t._id === taskId ? { ...t, status: newStatus } : t)]. *)
Definition handleStatusChange_update (taskId : Z) (newStatus : Status)
    (prevTasks : list Task) : list Task :=
  map (fun t => if _id t =? taskId then setStatus t newStatus else t)
      prevTasks.

(** ** Column order invariant *)

(** The values of [orders] are exactly 0, 1, ..., n-1 for n their number. *)
Definition contiguous (orders : list Z) : Prop :=
  Permutation orders (map Z.of_nat (seq 0 (List.length orders))).

Definition ContiguousOrders (ts : list Task) : Prop :=
  forall u s, contiguous (map order (column u s ts)).

(** ** Timeline day cells *)

Section Timeline.

(** [startOfDay] of the date library: the first instant of the local
    calendar day an instant falls on. *)
Variable startOfDay : Z -> Z.

Definition isSameDay (a b : Z) : bool := startOfDay a =? startOfDay b.

Definition isSome {A} (x : option A) : bool :=
  match x with Some _ => true | None => false end.

(** The predicate of [getTasksForDate] (week and month view of the first
    timeline component). *)
Definition getTasksForDate_pred (date : Z) (task : Task) : bool :=
  match startAt task, dueAt task with
  | Some start, Some end_ => (start <=? date) && (date <=? end_)
  | _, Some due => isSameDay due date
  | Some start, None => isSameDay start date
  | None, None => false
  end.

Definition getTasksForDate (ts : list Task) (date : Z) : list Task :=
  filter (getTasksForDate_pred date) ts.

(** The predicate of the [dayTasks] filter that the personal and global
    week and month views of the second timeline component share. *)
Definition dayTasks_pred (day : Z) (task : Task) : bool :=
  if negb (isSome (startAt task)) && negb (isSome (dueAt task)) then false
  else
    let startDate := startAt task in
    let dueDate := dueAt task in
    match startDate, dueDate with
    | Some s, Some d => (s <=? day) && (day <=? d)
    | Some s, None => isSameDay s day
    | None, Some d => isSameDay d day
    | None, None => false
    end.

Definition dayTasks (ts : list Task) (day : Z) : list Task :=
  filter (dayTasks_pred day) ts.

End Timeline.

(** ** User colours of the timeline legend *)

Definition colors : list string :=
  ["bg-blue-500"; "bg-green-500"; "bg-purple-500"; "bg-pink-500";
   "bg-indigo-500"; "bg-yellow-500"; "bg-red-500"; "bg-teal-500";
   "bg-orange-500"; "bg-cyan-500"].

Definition charCodeAt0 (b : ascii) : Z := Z.of_nat (nat_of_ascii b).

(** The reducer: [a = (a << 5) - a + b.charCodeAt(0); return a & a]. *)
Definition hashStep (a : Z) (b : ascii) : Z :=
  let a' := JS.shl32 a 5 - a + charCodeAt0 b in
  JS.and32 a' a'.

(** [userId.split('').reduce(..., 0)] *)
Definition hashOf (userId : string) : Z :=
  fold_left hashStep (list_ascii_of_string userId) 0.

(** [colors[Math.abs(hash) % colors.length]]; [None] stands for
    [undefined], the value of an index out of bounds. *)
Definition getUserColor (userId : string) : option string :=
  nth_error colors
    (Z.to_nat (Z.rem (Z.abs (hashOf userId)) (Z.of_nat (List.length colors)))).

(** ** What [POST] creates *)

(** The order [POST] gives a task it appends to a column. *)
Definition nextOrder (col : list Task) : Z :=
  match maxByOrder col with
  | Some l => order l + 1
  | None => 0
  end.

(** The document [POST] creates from validated data. *)
Definition created (db : DB) (uid : string) (data : TaskData) : Task :=
  mkTask (nextId db) uid (d_title data) (d_description data)
         (d_status data) (d_priority data)
         (nextOrder (column uid (d_status data) (tasks db)))
         (d_tags data) (d_startAt data) (d_dueAt data)
         (d_items data) (d_percent data).

(** The stores the two handlers of [/api/tasks] can produce: the empty
    store, and what any request leaves of such a store. *)
Inductive reachable (parseDate : string -> option Z)
    (regex_i : string -> option (string -> bool)) : DB -> Prop :=
  | reachable_empty : reachable parseDate regex_i emptyDB
  | reachable_GET db session searchParams :
      reachable parseDate regex_i db ->
      reachable parseDate regex_i
        (snd (GET parseDate regex_i session searchParams db))
  | reachable_POST db session requestBody :
      reachable parseDate regex_i db ->
      reachable parseDate regex_i
        (snd (POST parseDate regex_i session requestBody db)).

(** ** Sample data used in the examples *)

Definition sessionFor (uid : string) : option Session :=
  Some (mkSession (Some (mkUser (Some uid) None))).

(** A task of user [uid] with the given id, title, column and order, and
    every other field at its default. *)
Definition sampleTask (id : Z) (uid name : string) (s : Status) (o : Z)
  : Task :=
  mkTask id uid name None s med o [] None None [] (JS.of_Z 0).

(** A checklist of [n] items of which the first [c] are checked. *)
Definition checklistOf (c n : nat) : list ChecklistItem :=
  repeat (mkItem "" "" true) c ++ repeat (mkItem "" "" false) (n - c).

Definition setPercent (t : Task) (p : JS.number) : Task :=
  mkTask (_id t) (userId t) (title t) (description t) (status t)
         (priority t) (order t) (tags t) (startAt t) (dueAt t) (items t) p.

Definition setItems (t : Task) (l : list ChecklistItem) : Task :=
  mkTask (_id t) (userId t) (title t) (description t) (status t)
         (priority t) (order t) (tags t) (startAt t) (dueAt t) l (percent t).

(** A search engine for the patterns made of ordinary characters and
    [.], which stands for any character; it rejects every other pattern.
    Matching ignores case. *)
Definition isMeta (c : ascii) : bool :=
  existsb (Ascii.eqb c)
    (list_ascii_of_string "\^$*+?()[]{}|").

Fixpoint matchesHere (pattern subject : string) : bool :=
  match pattern, subject with
  | EmptyString, _ => true
  | String p pattern', String c subject' =>
      (Ascii.eqb p "."%char || Ascii.eqb (lowerChar p) (lowerChar c))
      && matchesHere pattern' subject'
  | String _ _, EmptyString => false
  end.

Fixpoint searchFrom (pattern subject : string) : bool :=
  matchesHere pattern subject
  || match subject with
     | EmptyString => false
     | String _ subject' => searchFrom pattern subject'
     end.

Definition wildcardEngine (pattern : string) : option (string -> bool) :=
  if existsb isMeta (list_ascii_of_string pattern) then None
  else Some (searchFrom pattern).

(** The start of the day on the UTC calendar, for the examples. *)
Definition utcStartOfDay (t : Z) : Z := t - t mod 86400000.

(** The store holding the single task titled [abc]. *)
Definition abcTask : Task := sampleTask 0 "u1" "abc" backlog 0.

Definition abcDB : DB := mkDB [abcTask] 1 [].

(** The store holding one task of user [u1] and one of user [u2]. *)
Definition twoUsersDB : DB :=
  mkDB [sampleTask 0 "u1" "Write spec" backlog 0;
        sampleTask 1 "u2" "Review spec" backlog 0] 2 [].

(** The creation payload [{title: "Write spec", status: "backlog"}]. *)
Definition firstTaskInput : TaskInput :=
  mkInput (Some "Write spec") None (Some "backlog") None None None None
          None None.

(** A payload whose title is too short. *)
Definition shortTitleInput : TaskInput :=
  mkInput (Some "ab") None None None None None None None None.

(** A task of user [u1] due at instant [due], without a start. *)
Definition dueOn (id : Z) (due : Z) : Task :=
  mkTask id "u1" "Task" None backlog med id [] None (Some due) []
         (JS.of_Z 0).

(** Four tasks due at the same instant. *)
Definition fourDueTasks : list Task :=
  [dueOn 0 0; dueOn 1 0; dueOn 2 0; dueOn 3 0].

(** The creation payload [{title: "Write spec", percent: 40}]. *)
Definition percent40Input : TaskInput :=
  mkInput (Some "Write spec") None None None None None None None
          (Some (JS.of_Z 40)).

(** Two tasks of one user in one column, at orders 0 and 1. *)
Definition twoTasks : list Task :=
  [sampleTask 0 "u1" "First task" backlog 0;
   sampleTask 1 "u1" "Second task" backlog 1].

(** ** The task dialog: checklist and tag editing *)

(** [addChecklistItem]: [now] is [Date.now().toString()]. *)
Definition addChecklistItem (now : string)
    (checklistItems : list ChecklistItem) : list ChecklistItem :=
  checklistItems ++ [mkItem now "" false].

(** The [Partial<ChecklistItem>] an update carries. *)
Record ItemUpdates := mkUpdates {
  upd_id : option string;
  upd_label : option string;
  upd_checked : option bool
}.

(** [{ ...item, ...updates }] *)
Definition mergeItem (item : ChecklistItem) (updates : ItemUpdates)
  : ChecklistItem :=
  mkItem (withDefault (item_id item) (upd_id updates))
         (withDefault (label item) (upd_label updates))
         (withDefault (checked item) (upd_checked updates)).

(** [items.map((item) => item.id === id ? { ...item, ...updates } : item)] *)
Definition updateChecklistItem (id : string) (updates : ItemUpdates)
    (items : list ChecklistItem) : list ChecklistItem :=
  map (fun item => if String.eqb (item_id item) id
                   then mergeItem item updates else item) items.

(** The update the checkbox of an item issues. *)
Definition setChecked (b : bool) : ItemUpdates := mkUpdates None None (Some b).

(** [items.filter((item) => item.id !== id)] *)
Definition removeChecklistItem (id : string) (items : list ChecklistItem)
  : list ChecklistItem :=
  filter (fun item => negb (String.eqb (item_id item) id)) items.

(** White space as [trim] sees it among code units below 256: tab, line
    feed, vertical tab, form feed, carriage return, space and no-break
    space. *)
Definition isWhiteSpace (c : ascii) : bool :=
  existsb (Nat.eqb (nat_of_ascii c)) [9; 10; 11; 12; 13; 32; 160]%nat.

Fixpoint trimStart (s : string) : string :=
  match s with
  | EmptyString => EmptyString
  | String c r => if isWhiteSpace c then trimStart r else s
  end.

Fixpoint trimEnd (s : string) : string :=
  match s with
  | EmptyString => EmptyString
  | String c r =>
      match trimEnd r with
      | EmptyString => if isWhiteSpace c then EmptyString
                       else String c EmptyString
      | r' => String c r'
      end
  end.

(** [s.trim()] *)
Definition trim (s : string) : string := trimEnd (trimStart s).

(** [tags.includes(tag)] *)
Definition includesTag (tags : list string) (tag : string) : bool :=
  existsb (String.eqb tag) tags.

(** The part of the dialog's state [addTag] reads and writes. *)
Record TagState := mkTagState {
  tagInput : string;
  watchedTags : list string
}.

(** [addTag]: a trimmed, non-empty input that is not yet a tag is
    appended and the input is cleared; otherwise nothing changes. *)
Definition addTag (st : TagState) : TagState :=
  if nonEmpty (trim (tagInput st))
     && negb (includesTag (watchedTags st) (trim (tagInput st)))
  then mkTagState "" (watchedTags st ++ [trim (tagInput st)])
  else st.

(** [removeTag]: [watchedTags.filter((tag) => tag !== tagToRemove)] *)
Definition removeTag (tagToRemove : string) (st : TagState) : TagState :=
  mkTagState (tagInput st)
    (filter (fun tag => negb (String.eqb tag tagToRemove)) (watchedTags st)).

(** ** The all-tasks view: saving *)

(** The state update of [handleTaskSave]: with a task being edited, the
    entries of the saved task's id are replaced; otherwise the saved task
    is appended. *)
Definition handleTaskSave_update (editingTask : option Task)
    (savedTask : Task) (prevTasks : list Task) : list Task :=
  match editingTask with
  | Some _ =>
      map (fun t => if _id t =? _id savedTask then savedTask else t) prevTasks
  | None => prevTasks ++ [savedTask]
  end.

(** ** The timeline: month cells, tags, personal tasks *)

(** A month cell of the first timeline component: the titles of
    [dayTasks.slice(0, 3)], and "+N more" when [dayTasks.length > 3]. *)
Definition monthCell3 (dayTasks : list Task) : list Task * option nat :=
  (firstn 3 dayTasks,
   if (3 <? List.length dayTasks)%nat
   then Some (List.length dayTasks - 3)%nat else None).

(** A month cell of the second timeline component: [slice(0, 2)] and
    "+N more" when [dayTasks.length > 2]. *)
Definition monthCell2 (dayTasks : list Task) : list Task * option nat :=
  (firstn 2 dayTasks,
   if (2 <? List.length dayTasks)%nat
   then Some (List.length dayTasks - 2)%nat else None).

(** The views that lay days out in cells: the week and month view of the
    first timeline component, and of the second its personal and global
    timelines (week), its personal and global month views and its clean
    calendar. *)
Inductive CellView :=
  | WeekView | MonthView
  | PersonalTimeline | GlobalTimeline
  | PersonalMonthView | GlobalMonthView
  | CleanCalendar.

(** What the cell of [day] renders in each view, from the task list [ts]
    the view filters (all tasks, the personal tasks, or the tasks of one
    user's row): the tasks placed in the cell and the count of its
    "+N more" line.  The clean calendar renders an empty cell. *)
Definition renderCell (startOfDay : Z -> Z) (view : CellView)
    (ts : list Task) (day : Z) : list Task * option nat :=
  match view with
  | WeekView => (getTasksForDate startOfDay ts day, None)
  | MonthView => monthCell3 (getTasksForDate startOfDay ts day)
  | PersonalTimeline | GlobalTimeline => (dayTasks startOfDay ts day, None)
  | PersonalMonthView | GlobalMonthView =>
      monthCell2 (dayTasks startOfDay ts day)
  | CleanCalendar => ([], None)
  end.

Definition cellTasks (startOfDay : Z -> Z) (view : CellView)
    (ts : list Task) (day : Z) : list Task :=
  fst (renderCell startOfDay view ts day).

Definition cellMore (startOfDay : Z -> Z) (view : CellView)
    (ts : list Task) (day : Z) : option nat :=
  snd (renderCell startOfDay view ts day).

(** [Set.add]: a set keeps its elements in insertion order. *)
Definition setAdd (x : string) (set : list string) : list string :=
  if existsb (String.eqb x) set then set else set ++ [x].

Fixpoint insertString (x : string) (l : list string) : list string :=
  match l with
  | [] => [x]
  | y :: l' => if String.leb x y then x :: l else y :: insertString x l'
  end.

(** [Array.prototype.sort] without a comparator, on strings: ascending
    by code units. *)
Definition sortStrings (l : list string) : list string :=
  fold_right insertString [] l.

(** [getAllTags]: every tag of every task, once, sorted. *)
Definition getAllTags (ts : list Task) : list string :=
  sortStrings
    (fold_left (fun allTags task =>
                  fold_left (fun set tag => setAdd tag set) (tags task)
                            allTags)
               ts []).

(** [getFilteredTasks], [selectedTag] being the selector's value. *)
Definition getFilteredTasks (selectedTag : string) (taskList : list Task)
  : list Task :=
  if String.eqb selectedTag "all" then taskList
  else filter (fun task => includesTag (tags task) selectedTag) taskList.

(** [session?.user?.id] as the timeline compares it. *)
Definition sessionRawId (session : option Session) : option string :=
  match session with
  | Some {| user := Some u |} => user_id u
  | _ => None
  end.

(** [allUserTasks] of the personal views:
    [tasks.filter((task) => taskUserId === session?.user?.id)]. *)
Definition allUserTasks (session : option Session) (ts : list Task)
  : list Task :=
  filter (fun task =>
            match sessionRawId session with
            | Some i => String.eqb (userId task) i
            | None => false
            end) ts.

(** [personalTasks]: the user's tasks carrying the selected tag. *)
Definition personalTasks (session : option Session) (selectedTag : string)
    (ts : list Task) : list Task :=
  getFilteredTasks selectedTag (allUserTasks session ts).

(** ** The global timeline: tasks grouped by user *)

Record UserGroup := mkGroup {
  g_userId : string;
  g_userName : string;
  g_tasks : list Task
}.

(** The property names every object inherits: for such a key [acc[key]]
    is truthy before any group is stored under it. *)
Definition objectPrototypeKeys : list string :=
  ["constructor"; "__proto__"; "__defineGetter__"; "__defineSetter__";
   "__lookupGetter__"; "__lookupSetter__"; "hasOwnProperty";
   "isPrototypeOf"; "propertyIsEnumerable"; "toLocaleString"; "toString";
   "valueOf"].

(** The group stored under [key], the groups being kept in the order in
    which their keys were first stored. *)
Fixpoint findGroup (key : string) (groups : list UserGroup)
  : option UserGroup :=
  match groups with
  | [] => None
  | g :: rest =>
      if String.eqb (g_userId g) key then Some g else findGroup key rest
  end.

(** [acc[key].tasks.push(task)] *)
Fixpoint pushTask (key : string) (task : Task) (groups : list UserGroup)
  : list UserGroup :=
  match groups with
  | [] => []
  | g :: rest =>
      if String.eqb (g_userId g) key
      then mkGroup (g_userId g) (g_userName g) (g_tasks g ++ [task]) :: rest
      else g :: pushTask key task rest
  end.

(** The reducer of [renderGlobalTimeline] and of the global month view.
    [None] stands for the [TypeError] thrown by [acc[key].tasks.push] when
    [key] names an inherited property, which has no [tasks]. *)
Definition groupStep (userName : string) (acc : option (list UserGroup))
    (task : Task) : option (list UserGroup) :=
  match acc with
  | None => None
  | Some groups =>
      let taskUserId := userId task in
      match findGroup taskUserId groups with
      | Some _ => Some (pushTask taskUserId task groups)
      | None =>
          if existsb (String.eqb taskUserId) objectPrototypeKeys
          then None
          else Some (pushTask taskUserId task
                       (groups ++ [mkGroup taskUserId userName []]))
      end
  end.

(** [filteredTasks.reduce(..., {})]; [userName] is
    [session?.user?.name || 'User'], and every [task.userId] is a string,
    as the API returns it.  The list keeps the keys in the order of their
    first task; [Object.values] enumerates keys that are array indices
    first, so only what does not depend on the order of the groups is
    stated about them. *)
Definition groupByUser (userName : string) (ts : list Task)
  : option (list UserGroup) :=
  fold_left (groupStep userName) ts (Some []).

(** The groups are well formed for the tasks [ts] they were built from:
    distinct keys, and under each key the tasks of that user, in order,
    at least one. *)
Definition groupsOf (userName : string) (ts : list Task)
    (groups : list UserGroup) : Prop :=
  NoDup (map g_userId groups)
  /\ (forall g, In g groups ->
        g_userName g = userName
        /\ g_tasks g <> []
        /\ g_tasks g = filter (fun t => String.eqb (userId t) (g_userId g)) ts)
  /\ (forall t, In t ts -> In (userId t) (map g_userId groups)).

(** ** Checks run over all small checklists *)

(** The integer [progressOf c n] stands for. *)
Definition progressZ (c n : nat) : option Z := JS.to_Z (progressOf c n).

(** [progressOf c n] is an integer from 0 to 100, it is 100 only for
    [c = n] and 0 only for [c = 0], and one more checked item does not
    lower it. *)
Definition progressShape (c n : nat) : bool :=
  match progressZ c n with
  | Some r =>
      (0 <=? r) && (r <=? 100)
      && Bool.eqb (r =? 100) (c =? n)%nat
      && Bool.eqb (r =? 0) (c =? 0)%nat
      && ((c =? n)%nat
          || match progressZ (S c) n with
             | Some r' => r <=? r'
             | None => false
             end)
  | None => false
  end.

(** * Properties *)

Lemma Status_eqb_eq a b : Status_eqb a b = true <-> a = b.
Proof. destruct a, b; simpl; split; congruence. Qed.

Lemma Status_eqb_refl a : Status_eqb a a = true.
Proof. now destruct a. Qed.

(** ** User colours *)

Lemma toInt32_range z : - 2 ^ 31 <= JS.toInt32 z < 2 ^ 31.
Proof.
  unfold JS.toInt32.
  pose proof (Z.mod_pos_bound (z + 2 ^ 31) (2 ^ 32) eq_refl). lia.
Qed.

Lemma hashStep_range a b : - 2 ^ 31 <= hashStep a b < 2 ^ 31.
Proof. unfold hashStep, JS.and32. apply toInt32_range. Qed.

Lemma fold_left_invariant {A B} (P : A -> Prop) (f : A -> B -> A) l a :
  P a -> (forall x b, P x -> P (f x b)) -> P (fold_left f l a).
Proof.
  intros Ha Hf. revert a Ha.
  induction l as [|b l IH]; intros a Ha; simpl; auto.
Qed.

(** The hash is a signed 32-bit integer, whatever the string. *)
Lemma hashOf_range userId : - 2 ^ 31 <= hashOf userId < 2 ^ 31.
Proof.
  unfold hashOf.
  apply (fold_left_invariant (fun z => - 2 ^ 31 <= z < 2 ^ 31)).
  - lia.
  - intros x b _. apply hashStep_range.
Qed.

Lemma colorIndex_in_bounds userId :
  (Z.to_nat (Z.rem (Z.abs (hashOf userId)) (Z.of_nat (List.length colors)))
   < List.length colors)%nat.
Proof.
  change (Z.of_nat (List.length colors)) with 10.
  change (List.length colors) with 10%nat.
  pose proof (Z.rem_bound_pos (Z.abs (hashOf userId)) 10
                (Z.abs_nonneg _) eq_refl).
  lia.
Qed.

(** C10: for every user id, the empty one included, [getUserColor]
    returns an entry of its ten-colour palette (the index
    [Math.abs(hash) % 10] is in bounds), and equal user ids get equal
    colours. *)
Theorem getUserColor_defined_deterministic (userId userId' : string)
    (Heq : userId = userId') :
  (exists c, getUserColor userId = Some c /\ In c colors)
  /\ getUserColor userId = getUserColor userId'.
Proof.
  split; [|now subst].
  unfold getUserColor.
  destruct (nth_error colors _) as [c|] eqn:E.
  - exists c. split; [reflexivity|]. eapply nth_error_In, E.
  - apply nth_error_None in E.
    pose proof (colorIndex_in_bounds userId). lia.
Qed.

Lemma getUserColor_defined_deterministic_witness :
  (exists c, getUserColor "" = Some c /\ In c colors)
  /\ getUserColor "" = getUserColor "".
Proof. exact (getUserColor_defined_deterministic "" "" eq_refl). Defined.

Example getUserColor_empty : getUserColor "" = Some "bg-blue-500".
Proof. reflexivity. Qed.

Example getUserColor_abc : getUserColor "abc" = Some "bg-indigo-500".
Proof. vm_compute. reflexivity. Qed.

(** ** Timeline day cells *)

Section TimelineFacts.

Variable startOfDay : Z -> Z.

Lemma getTasksForDate_pred_dayTasks_pred day t :
  getTasksForDate_pred startOfDay day t = dayTasks_pred startOfDay day t.
Proof.
  unfold getTasksForDate_pred, dayTasks_pred.
  destruct (startAt t), (dueAt t); reflexivity.
Qed.

Lemma dayTasks_pred_spec day t :
  dayTasks_pred startOfDay day t = true <->
  (exists s e, startAt t = Some s /\ dueAt t = Some e /\ s <= day <= e)
  \/ (exists i, (startAt t = Some i /\ dueAt t = None
                 \/ startAt t = None /\ dueAt t = Some i)
                /\ startOfDay i = startOfDay day).
Proof.
  unfold dayTasks_pred, isSameDay.
  destruct (startAt t) as [s|], (dueAt t) as [e|]; simpl.
  - rewrite andb_true_iff, !Z.leb_le. split.
    + intros H. left. exists s, e. auto.
    + intros [(s' & e' & Hs & He & H)|(i & [[_ H]|[H _]] & _)];
        [injection Hs as <-; injection He as <-; exact H| |]; discriminate.
  - rewrite Z.eqb_eq. split.
    + intros H. right. exists s. auto.
    + intros [(s' & e' & _ & He & _)|(i & [[Hs _]|[Hs _]] & H)];
        [discriminate|injection Hs as <-; exact H|discriminate].
  - rewrite Z.eqb_eq. split.
    + intros H. right. exists e. auto.
    + intros [(s' & e' & Hs & _ & _)|(i & [[Hs _]|[_ He]] & H)];
        [discriminate|discriminate|injection He as <-; exact H].
  - split; [discriminate|].
    intros [(s' & e' & Hs & _ & _)|(i & [[Hs _]|[_ He]] & _)]; discriminate.
Qed.

End TimelineFacts.

Lemma getTasksForDate_dayTasks (startOfDay : Z -> Z) ts day :
  getTasksForDate startOfDay ts day = dayTasks startOfDay ts day.
Proof.
  apply filter_ext. intros t. apply getTasksForDate_pred_dayTasks_pred.
Qed.

Lemma In_firstn {A} (k : nat) (l : list A) (x : A) :
  In x (firstn k l) -> In x l.
Proof.
  intros H. rewrite <- (firstn_skipn k l). apply in_or_app. now left.
Qed.

(** A cell that lists the first [k] entries and counts the others. *)
Lemma firstn_and_more {A} (k : nat) (l : list A) :
  exists hidden,
    l = firstn k l ++ hidden
    /\ (List.length (firstn k l) <= k)%nat
    /\ (hidden <> [] -> List.length (firstn k l) = k)
    /\ (if (k <? List.length l)%nat then Some (List.length l - k)%nat
        else None)
       = match hidden with
         | [] => None
         | _ => Some (List.length hidden)
         end.
Proof.
  exists (skipn k l). split; [symmetry; apply firstn_skipn|].
  split; [apply firstn_le_length|].
  pose proof (length_skipn k l) as Hs. pose proof (length_firstn k l) as Hf.
  split.
  - intros Hne. destruct (skipn k l) as [|x r] eqn:E; [contradiction|].
    simpl in Hs. lia.
  - destruct (k <? List.length l)%nat eqn:E.
    + apply Nat.ltb_lt in E. destruct (skipn k l) as [|x r]; simpl in *.
      * lia.
      * f_equal. lia.
    + apply Nat.ltb_ge in E. destruct (skipn k l) as [|x r]; simpl in *.
      * reflexivity.
      * lia.
Qed.

(** C9: the tasks due in the cell of day [day] are those that have both
    dates with [startAt <= day <= dueAt], [day] being the first instant
    of the day, or exactly one date, which falls on the same calendar
    day.  The week views place exactly these tasks in the cell; a month
    view places the first three of them (the first two in the second
    timeline component) and counts the others in its "+N more" line; the
    clean calendar places none.  No view places a task that is not due
    in the cell, and a task with neither date is in no cell. *)
Theorem day_cell_membership (startOfDay : Z -> Z) (view : CellView)
    (ts : list Task) (day : Z) (t : Task) :
  let placed := fun x : Task =>
    (exists s e, startAt x = Some s /\ dueAt x = Some e /\ s <= day <= e)
    \/ (exists i, (startAt x = Some i /\ dueAt x = None
                   \/ startAt x = None /\ dueAt x = Some i)
                  /\ startOfDay i = startOfDay day) in
  let due := dayTasks startOfDay ts day in
  let cell := cellTasks startOfDay view ts day in
  let more := cellMore startOfDay view ts day in
  let firstOf := fun k : nat =>
    exists hidden,
      due = cell ++ hidden
      /\ (List.length cell <= k)%nat
      /\ (hidden <> [] -> List.length cell = k)
      /\ more = match hidden with
                | [] => None
                | _ => Some (List.length hidden)
                end in
  (forall x, In x due <-> In x ts /\ placed x)
  /\ match view with
     | WeekView | PersonalTimeline | GlobalTimeline =>
         (forall x, In x cell <-> In x ts /\ placed x) /\ more = None
     | MonthView => firstOf 3%nat
     | PersonalMonthView | GlobalMonthView => firstOf 2%nat
     | CleanCalendar => cell = [] /\ more = None
     end
  /\ (In t cell -> In t ts /\ placed t)
  /\ (startAt t = None -> dueAt t = None -> ~ In t cell).
Proof.
  intros placed due cell more firstOf.
  assert (Hdue : forall x, In x due <-> In x ts /\ placed x).
  { intros x. unfold due, dayTasks.
    rewrite filter_In, dayTasks_pred_spec. reflexivity. }
  assert (Hsub : forall x, In x cell -> In x due).
  { intros x. unfold cell, cellTasks, renderCell, monthCell3, monthCell2.
    rewrite !getTasksForDate_dayTasks. fold due.
    destruct view; cbn [fst]; intros H; try exact H; try contradiction;
      eapply In_firstn; exact H. }
  split; [exact Hdue|]. split; [|split].
  - unfold firstOf, cell, more, cellTasks, cellMore, renderCell, monthCell3,
      monthCell2.
    rewrite !getTasksForDate_dayTasks. fold due.
    destruct view; cbn [fst snd];
      try (split; [exact Hdue|reflexivity]);
      try apply firstn_and_more.
    split; reflexivity.
  - intros H. apply Hdue, Hsub, H.
  - intros Hs Hd H. apply Hsub, Hdue in H as [_ H].
    destruct H as [(s & e & H & _)|(i & [[H _]|[_ H]] & _)]; congruence.
Qed.

(** Four tasks due on one day, in the month view of the first timeline
    component: the fourth is due in the cell and is in the view's task
    list, but is not placed in the cell, which lists three tasks and
    "+1 more"; the clean calendar places none of them. *)
Lemma month_cell_omits_fourth_task :
  let t := dueOn 3 0 in
  let placed :=
    (exists s e, startAt t = Some s /\ dueAt t = Some e /\ s <= 0 <= e)
    \/ (exists i, (startAt t = Some i /\ dueAt t = None
                   \/ startAt t = None /\ dueAt t = Some i)
                  /\ utcStartOfDay i = utcStartOfDay 0) in
  In t fourDueTasks
  /\ placed
  /\ cellTasks utcStartOfDay MonthView fourDueTasks 0
     = [dueOn 0 0; dueOn 1 0; dueOn 2 0]
  /\ cellMore utcStartOfDay MonthView fourDueTasks 0 = Some 1%nat
  /\ cellTasks utcStartOfDay CleanCalendar fourDueTasks 0 = []
  /\ ~ (In t (cellTasks utcStartOfDay MonthView fourDueTasks 0)
        <-> In t fourDueTasks /\ placed).
Proof.
  intros t placed.
  assert (Hin : In t fourDueTasks) by (simpl; auto).
  assert (Hp : placed).
  { right. exists 0. split; [right; split; reflexivity|reflexivity]. }
  split; [exact Hin|]. split; [exact Hp|].
  split; [reflexivity|]. split; [reflexivity|]. split; [reflexivity|].
  intros [_ H]. specialize (H (conj Hin Hp)). simpl in H.
  destruct H as [H|[H|[H|[]]]]; discriminate H.
Qed.

(** ** The route handlers *)

Section ApiFacts.

Variable parseDate : string -> option Z.
Variable regex_i : string -> option (string -> bool).

(** What [GET] does for a session with a user id. *)
Lemma GET_authenticated session uid searchParams db :
  sessionUserId session = Some uid ->
  GET parseDate regex_i session searchParams db =
  match getTasksQuerySchema_parse parseDate (rawQueryOf searchParams) with
  | Throw _ => (internalError, db)
  | Ok query =>
      if forallb (accepted regex_i) (getFilter uid query)
      then (json (TasksBody
                    (sortBy byStatusThenOrder
                       (filter (matchesAll regex_i (getFilter uid query))
                          (tasks db)))) 200,
            logged [OpFind; OpConnect] db)
      else (internalError, logged [OpFind; OpConnect] db)
  end.
Proof.
  intros Hs. unfold GET, try_catch. rewrite Hs.
  unfold bind, liftResult, connectDB, Task_find_sorted, bind, logOp, ret.
  destruct (getTasksQuerySchema_parse parseDate (rawQueryOf searchParams))
    as [query|e]; [|reflexivity].
  cbn [fst snd tasks nextId ops logged app].
  destruct (forallb _ _); reflexivity.
Qed.

Lemma GET_unauthenticated session searchParams db :
  sessionUserId session = None ->
  GET parseDate regex_i session searchParams db = (unauthorized, db).
Proof. intros Hs. unfold GET, try_catch. now rewrite Hs. Qed.

Lemma POST_unauthenticated session requestBody db :
  sessionUserId session = None ->
  POST parseDate regex_i session requestBody db = (unauthorized, db).
Proof. intros Hs. unfold POST, try_catch. now rewrite Hs. Qed.

Lemma In_insertSorted le x y l :
  In y (insertSorted le x l) <-> y = x \/ In y l.
Proof.
  induction l as [|z l IH]; simpl.
  - intuition auto.
  - destruct (le x z); simpl; [intuition auto|]. rewrite IH. intuition auto.
Qed.

Lemma In_sortBy le y l : In y (sortBy le l) <-> In y l.
Proof.
  induction l as [|x l IH]; simpl; [tauto|].
  rewrite In_insertSorted, IH. intuition auto.
Qed.

Lemma getFilter_userId uid query t :
  matchesAll regex_i (getFilter uid query) t = true -> userId t = uid.
Proof.
  unfold getFilter, matchesAll. simpl.
  rewrite andb_true_iff. intros [H _]. now apply String.eqb_eq.
Qed.

Lemma filter_removeFirst (p f : Task -> bool) l :
  (forall x, p x = true -> f x = false) ->
  filter f (removeFirst p l) = filter f l.
Proof.
  intros Hp. induction l as [|x l IH]; simpl; [reflexivity|].
  destruct (p x) eqn:E.
  - now rewrite (Hp x E).
  - simpl. now rewrite IH.
Qed.

End ApiFacts.

(** C6: without a session, or without a user id in it, [GET] and [POST]
    answer 401 and issue no operation against the store, which is left
    as it was. *)
Theorem unauthenticated_401_store_untouched
    (parseDate : string -> option Z)
    (regex_i : string -> option (string -> bool))
    (session : option Session)
    (searchParams : list (string * string))
    (requestBody : option TaskInput) (db : DB)
    (Hs : sessionUserId session = None) :
  GET parseDate regex_i session searchParams db
  = (json (ErrorBody "Unauthorized") 401, db)
  /\ POST parseDate regex_i session requestBody db
     = (json (ErrorBody "Unauthorized") 401, db).
Proof.
  split.
  - now apply GET_unauthenticated.
  - now apply POST_unauthenticated.
Qed.

Lemma unauthenticated_401_store_untouched_witness :
  GET (fun _ => None) (fun _ => None) None [("status", "done")] emptyDB
  = (json (ErrorBody "Unauthorized") 401, emptyDB)
  /\ POST (fun _ => None) (fun _ => None) None None emptyDB
     = (json (ErrorBody "Unauthorized") 401, emptyDB).
Proof.
  exact (unauthenticated_401_store_untouched (fun _ => None) (fun _ => None)
           None [("status", "done")] None emptyDB eq_refl).
Defined.

(** A session whose user id is the empty string is no better. *)
Example empty_user_id_unauthenticated : sessionUserId (sessionFor "") = None.
Proof. reflexivity. Qed.

Lemma filter_remove_one {A} (f : A -> bool) l1 x l2 :
  f x = false -> filter f (l1 ++ x :: l2) = filter f (l1 ++ l2).
Proof. intros H. rewrite !filter_app. simpl. now rewrite H. Qed.

(** C4: every task [GET] returns belongs to the session's user, whatever
    the query parameters, recognised or not; hence removing from the
    collection a task of one user leaves the list any other user gets
    unchanged. *)
Theorem GET_scoped_to_session_user
    (parseDate : string -> option Z)
    (regex_i : string -> option (string -> bool))
    (session : option Session)
    (searchParams : list (string * string)) (db : DB) :
  (forall t,
      In t (responseTasks (fst (GET parseDate regex_i session searchParams db)))
      -> sessionUserId session = Some (userId t))
  /\ (forall before removed after db',
         tasks db = before ++ removed :: after ->
         tasks db' = before ++ after ->
         sessionUserId session <> Some (userId removed) ->
         fst (GET parseDate regex_i session searchParams db')
         = fst (GET parseDate regex_i session searchParams db)).
Proof.
  destruct (sessionUserId session) as [me|] eqn:Hs.
  - split.
    + intros t. rewrite (GET_authenticated _ _ _ _ _ _ Hs).
      destruct (getTasksQuerySchema_parse _ _) as [query|e]; [|contradiction].
      destruct (forallb _ _); [|contradiction].
      unfold responseTasks. simpl. rewrite In_sortBy, filter_In.
      intros [_ H]. apply getFilter_userId in H. now subst.
    + intros before removed after db' Hdb Hdb' Hne.
      rewrite !(GET_authenticated _ _ _ _ _ _ Hs).
      destruct (getTasksQuerySchema_parse _ _) as [query|e]; [|reflexivity].
      destruct (forallb _ _); [|reflexivity].
      simpl. rewrite Hdb, Hdb', filter_remove_one; [reflexivity|].
      destruct (matchesAll _ _ removed) eqn:E; [|reflexivity].
      apply getFilter_userId in E. congruence.
  - split.
    + intros t. now rewrite (GET_unauthenticated _ _ _ _ _ Hs).
    + intros. now rewrite !(GET_unauthenticated _ _ _ _ _ Hs).
Qed.

Lemma GET_scoped_to_session_user_witness :
  let get := GET (fun _ => None) (fun _ => None) (sessionFor "u1")
                 [("scope", "all")] in
  let mine := sampleTask 0 "u1" "Write spec" backlog 0 in
  In mine (responseTasks (fst (get twoUsersDB)))
  /\ sessionUserId (sessionFor "u1") = Some (userId mine)
  /\ fst (get (mkDB [mine] 2 [])) = fst (get twoUsersDB).
Proof.
  intros get mine.
  pose proof (GET_scoped_to_session_user (fun _ => None) (fun _ => None)
                (sessionFor "u1") [("scope", "all")] twoUsersDB) as [H1 H2].
  assert (Hin : In mine (responseTasks (fst (get twoUsersDB))))
    by (left; reflexivity).
  split; [exact Hin|]. split.
  - exact (H1 _ Hin).
  - apply (H2 [mine] (sampleTask 1 "u2" "Review spec" backlog 0) []);
      [reflexivity|reflexivity|discriminate].
Defined.

(** With the store effect of [DELETE] modelled after the spec, the list
    of every user but the deleting one is what it was. *)
Lemma deleteTask_other_users_list parseDate regex_i session searchParams
    uid id db :
  sessionUserId session <> Some uid ->
  fst (GET parseDate regex_i session searchParams (deleteTask uid id db))
  = fst (GET parseDate regex_i session searchParams db).
Proof.
  intros Hne. destruct (sessionUserId session) as [me|] eqn:Hs.
  - rewrite !(GET_authenticated _ _ _ _ _ _ Hs).
    destruct (getTasksQuerySchema_parse _ _) as [query|e]; [|reflexivity].
    destruct (forallb _ _); [|reflexivity].
    simpl. rewrite filter_removeFirst; [reflexivity|].
    intros x Hx. apply andb_true_iff in Hx as [_ Hx].
    apply String.eqb_eq in Hx.
    destruct (matchesAll _ _ x) eqn:E; [|reflexivity].
    apply getFilter_userId in E. congruence.
  - now rewrite !(GET_unauthenticated _ _ _ _ _ Hs).
Qed.

(** The deleted task is gone from its owner's list. *)
Example delete_then_list :
  let db := deleteTask "u2" 1 twoUsersDB in
  responseTasks (fst (GET (fun _ => None) (fun _ => None) (sessionFor "u1")
                        [] db))
  = [sampleTask 0 "u1" "Write spec" backlog 0]
  /\ responseTasks (fst (GET (fun _ => None) (fun _ => None)
                           (sessionFor "u2") [] db)) = [].
Proof. split; reflexivity. Qed.

(** C5: a [GET] whose query fails validation ([status=archived]) is
    answered 500 with the generic message, not 400 with the issues: the
    [catch] of [GET] has no case for a validation error.  [POST], on a
    payload that fails validation, answers 400 with the issues. *)
Theorem GET_validation_failure_is_500
    (parseDate : string -> option Z)
    (regex_i : string -> option (string -> bool)) (db : DB) :
  GET parseDate regex_i (sessionFor "u1") [("status", "archived")] db
  = (json (ErrorBody "Internal server error") 500, db)
  /\ POST parseDate regex_i (sessionFor "u1") (Some shortTitleInput) db
     = (json (ValidationBody "Validation error"
                [mkIssue "title" "Title must be at least 3 characters"]) 400,
        db).
Proof. split; reflexivity. Qed.

(** Whenever the query fails validation, whatever the schema rejects. *)
Lemma GET_invalid_query_500 parseDate regex_i session uid searchParams
    issues db :
  sessionUserId session = Some uid ->
  getTasksQuerySchema_parse parseDate (rawQueryOf searchParams)
  = Throw (ZodError issues) ->
  GET parseDate regex_i session searchParams db = (internalError, db).
Proof.
  intros Hs Hq. rewrite (GET_authenticated _ _ _ _ _ _ Hs). now rewrite Hq.
Qed.

(** [POST] answers every validation failure with 400 and the issues. *)
Lemma POST_invalid_body_400 parseDate regex_i session uid input issues db :
  sessionUserId session = Some uid ->
  taskSchema_parse parseDate input = Throw (ZodError issues) ->
  POST parseDate regex_i session (Some input) db
  = (json (ValidationBody "Validation error" issues) 400, db).
Proof.
  intros Hs Hq. unfold POST, try_catch. rewrite Hs.
  unfold bind, liftResult. now rewrite Hq.
Qed.

(** ** Creation: the order of the new task *)

Lemma maxByOrder_None l : maxByOrder l = None <-> l = [].
Proof.
  destruct l as [|x l]; simpl; [tauto|].
  split; [|discriminate].
  destruct (maxByOrder l) as [y|]; [destruct (order x <? order y)|];
    discriminate.
Qed.

Lemma maxByOrder_Some l m :
  maxByOrder l = Some m ->
  In m l /\ forall x, In x l -> order x <= order m.
Proof.
  revert m. induction l as [|y l IH]; simpl; [discriminate|].
  intros m. destruct (maxByOrder l) as [z|] eqn:E.
  - destruct (IH z eq_refl) as [Hin Hmax].
    destruct (order y <? order z) eqn:C; intros [= <-].
    + apply Z.ltb_lt in C. split; [auto|].
      intros x [<-|Hx]; [lia|auto].
    + apply Z.ltb_ge in C. split; [auto|].
      intros x [<-|Hx]; [lia|]. specialize (Hmax x Hx). lia.
  - intros [= <-]. apply maxByOrder_None in E. subst l.
    split; [auto|]. intros x [<-|[]]. lia.
Qed.

Section CreationFacts.

Variable parseDate : string -> option Z.
Variable regex_i : string -> option (string -> bool).

Lemma column_filter uid s ts :
  filter (matchesAll regex_i [UserIdIs uid; StatusIs s]) ts = column uid s ts.
Proof.
  apply filter_ext. intros t. unfold matchesAll, inColumn. simpl.
  now rewrite andb_true_r.
Qed.

Lemma POST_valid session uid input data db :
  sessionUserId session = Some uid ->
  taskSchema_parse parseDate input = Ok data ->
  POST parseDate regex_i session (Some input) db
  = (json (TaskBody (created db uid data)) 201,
     mkDB (tasks db ++ [created db uid data]) (nextId db + 1)
          ([OpCreate; OpFindOne; OpConnect] ++ ops db)).
Proof.
  intros Hs Hv. unfold POST, try_catch. rewrite Hs.
  unfold bind, liftResult. rewrite Hv.
  unfold connectDB, Task_findOne_lastByOrder, Task_create, bind, logOp, ret.
  cbn [fst snd tasks nextId ops forallb accepted andb].
  rewrite column_filter. reflexivity.
Qed.

(** [POST] changes the collection only when it creates a task. *)
Lemma POST_tasks session requestBody db :
  tasks (snd (POST parseDate regex_i session requestBody db)) = tasks db
  \/ exists uid input data,
       sessionUserId session = Some uid
       /\ requestBody = Some input
       /\ taskSchema_parse parseDate input = Ok data
       /\ tasks (snd (POST parseDate regex_i session requestBody db))
          = tasks db ++ [created db uid data].
Proof.
  destruct (sessionUserId session) as [uid|] eqn:Hs.
  - destruct requestBody as [input|].
    + destruct (taskSchema_parse parseDate input) as [data|e] eqn:Hv.
      * right. exists uid, input, data.
        rewrite (POST_valid _ _ _ _ _ Hs Hv). auto.
      * left. unfold POST, try_catch. rewrite Hs.
        unfold bind, liftResult. now rewrite Hv.
    + left. unfold POST, try_catch. now rewrite Hs.
  - left. now rewrite (POST_unauthenticated _ _ _ _ _ Hs).
Qed.

Lemma taskSchema_parse_Ok input data :
  taskSchema_parse parseDate input = Ok data ->
  taskSchema_issues parseDate input = []
  /\ data = taskSchema_output parseDate input.
Proof.
  unfold taskSchema_parse.
  destruct (taskSchema_issues parseDate input); [|discriminate].
  now intros [= <-].
Qed.

(** A payload without a status gets [backlog]; a payload with one gets
    the column it names. *)
Lemma taskSchema_parse_status input data :
  taskSchema_parse parseDate input = Ok data ->
  match in_status input with
  | None => d_status data = backlog
  | Some name => parseStatus name = Some (d_status data)
  end.
Proof.
  intros H. apply taskSchema_parse_Ok in H as [Hi ->].
  unfold taskSchema_issues in Hi.
  do 2 (apply app_eq_nil in Hi as [_ Hi]).
  apply app_eq_nil in Hi as [Hi _].
  unfold taskSchema_output. cbn [d_status].
  destruct (in_status input) as [name|]; [|reflexivity].
  unfold optionalField in *. destruct (parseStatus name); [reflexivity|].
  discriminate.
Qed.

End CreationFacts.

Lemma filter_none {A} (f : A -> bool) l :
  (forall x, In x l -> f x = false) -> filter f l = [].
Proof.
  induction l as [|x l IH]; simpl; intros H; [reflexivity|].
  rewrite (H x (or_introl eq_refl)). apply IH. auto.
Qed.

(** Listing without parameters after a creation in a store that held no
    task of the user: the created task alone. *)
Lemma GET_after_first_POST parseDate regex_i session uid input data db :
  sessionUserId session = Some uid ->
  taskSchema_parse parseDate input = Ok data ->
  (forall t, In t (tasks db) -> userId t <> uid) ->
  responseTasks
    (fst (GET parseDate regex_i session []
            (snd (POST parseDate regex_i session (Some input) db))))
  = [created db uid data].
Proof.
  intros Hs Hv Hnone.
  rewrite (POST_valid _ _ _ _ _ _ _ Hs Hv).
  rewrite (GET_authenticated _ _ _ _ _ _ Hs).
  cbn [snd tasks]. unfold responseTasks. simpl.
  rewrite filter_app, filter_none.
  - simpl. unfold matchesAll. simpl. now rewrite String.eqb_refl.
  - intros t Ht. unfold matchesAll. simpl. rewrite andb_true_r.
    apply String.eqb_neq. auto.
Qed.

(** C1: for a valid payload from an authenticated user, [POST] creates a
    task whose status is the payload's, [backlog] when it gives none, and
    whose order is 0 in an empty column of that user and one more than the
    column's greatest order otherwise; creating
    [{title: "Write spec", status: "backlog"}] as the user's first task
    and listing then gives exactly that task, with order 0, percent 0 and
    no tags. *)
Theorem POST_appends_to_column
    (parseDate : string -> option Z)
    (regex_i : string -> option (string -> bool))
    (session : option Session) (uid : string)
    (input : TaskInput) (data : TaskData) (db : DB)
    (Hs : sessionUserId session = Some uid)
    (Hv : taskSchema_parse parseDate input = Ok data) :
  (exists task,
      POST parseDate regex_i session (Some input) db
      = (json (TaskBody task) 201,
         mkDB (tasks db ++ [task]) (nextId db + 1)
              ([OpCreate; OpFindOne; OpConnect] ++ ops db))
      /\ userId task = uid
      /\ match in_status input with
         | None => status task = backlog
         | Some name => parseStatus name = Some (status task)
         end
      /\ let col := column uid (status task) (tasks db) in
         (col = [] /\ order task = 0
          \/ exists top, In top col
                         /\ (forall t, In t col -> order t <= order top)
                         /\ order task = order top + 1))
  /\ ((forall t, In t (tasks db) -> userId t <> uid) ->
      exists task,
        responseTasks
          (fst (GET parseDate regex_i session []
                  (snd (POST parseDate regex_i session (Some firstTaskInput)
                          db))))
        = [task]
        /\ title task = "Write spec" /\ status task = backlog
        /\ order task = 0 /\ percent task = JS.of_Z 0 /\ tags task = []).
Proof.
  split.
  - exists (created db uid data). split; [now apply POST_valid|].
    split; [reflexivity|]. split.
    + exact (taskSchema_parse_status _ _ _ Hv).
    + cbn [created status order]. unfold nextOrder.
      destruct (maxByOrder _) as [top|] eqn:E.
      * right. exists top. apply maxByOrder_Some in E as [Hin Hmax]. auto.
      * left. apply maxByOrder_None in E. auto.
  - intros Hnone.
    assert (Hp : taskSchema_parse parseDate firstTaskInput
                 = Ok (taskSchema_output parseDate firstTaskInput))
      by reflexivity.
    exists (created db uid (taskSchema_output parseDate firstTaskInput)).
    split; [now apply GET_after_first_POST|].
    cbn [created title status order percent tags]. repeat split.
    unfold nextOrder, column. rewrite filter_none; [reflexivity|].
    intros t Ht. unfold inColumn.
    apply andb_false_iff. left. apply String.eqb_neq. auto.
Qed.

Lemma POST_appends_to_column_witness :
  let pd := fun _ : string => @None Z in
  let rx := fun _ : string => @None (string -> bool) in
  let task := sampleTask 0 "u1" "Write spec" backlog 0 in
  POST pd rx (sessionFor "u1") (Some firstTaskInput) emptyDB
  = (json (TaskBody task) 201,
     mkDB [task] 1 [OpCreate; OpFindOne; OpConnect])
  /\ responseTasks
       (fst (GET pd rx (sessionFor "u1") []
               (snd (POST pd rx (sessionFor "u1") (Some firstTaskInput)
                       emptyDB))))
     = [task].
Proof.
  destruct (POST_appends_to_column (fun _ => None) (fun _ => None)
              (sessionFor "u1") "u1" firstTaskInput
              (taskSchema_output (fun _ => None) firstTaskInput) emptyDB
              eq_refl eq_refl) as [_ H].
  destruct (H (fun t (Hin : In t []) => False_ind _ Hin)) as (t & Ht & _).
  split; reflexivity.
Defined.

(** ** Contiguous orders within a column *)

Lemma contiguous_bounds orders x :
  contiguous orders -> In x orders ->
  0 <= x < Z.of_nat (List.length orders).
Proof.
  intros Hc Hx. apply (Permutation_in _ Hc) in Hx.
  apply in_map_iff in Hx as (k & <- & Hk). apply in_seq in Hk. lia.
Qed.

Lemma contiguous_has orders k :
  contiguous orders -> (k < List.length orders)%nat ->
  In (Z.of_nat k) orders.
Proof.
  intros Hc Hk. apply (Permutation_in _ (Permutation_sym Hc)).
  apply in_map, in_seq. lia.
Qed.

Lemma contiguous_snoc orders :
  contiguous orders ->
  contiguous (orders ++ [Z.of_nat (List.length orders)]).
Proof.
  unfold contiguous. intros Hc.
  rewrite length_app. simpl. rewrite Nat.add_1_r, seq_S, map_app. simpl.
  now apply Permutation_app_tail.
Qed.

(** In a column whose orders are contiguous, the next order is the
    number of its tasks. *)
Lemma nextOrder_contiguous col :
  contiguous (map order col) -> nextOrder col = Z.of_nat (List.length col).
Proof.
  intros Hc. unfold nextOrder.
  destruct (maxByOrder col) as [top|] eqn:E.
  - apply maxByOrder_Some in E as [Hin Hmax].
    pose proof (contiguous_bounds _ _ Hc (in_map order _ _ Hin)) as Hb.
    rewrite length_map in Hb.
    assert (Hn : (List.length col - 1 < List.length (map order col))%nat).
    { rewrite length_map. destruct col; simpl in *; [contradiction|lia]. }
    apply (contiguous_has _ _ Hc) in Hn.
    apply in_map_iff in Hn as (x & Hx & Hxin).
    specialize (Hmax x Hxin). lia.
  - apply maxByOrder_None in E. now subst.
Qed.

Lemma column_app u s l1 l2 :
  column u s (l1 ++ l2) = column u s l1 ++ column u s l2.
Proof. apply filter_app. Qed.

Lemma ContiguousOrders_created db uid data :
  ContiguousOrders (tasks db) ->
  ContiguousOrders (tasks db ++ [created db uid data]).
Proof.
  intros Hc u s. rewrite column_app.
  unfold column at 2. simpl.
  destruct (inColumn u s (created db uid data)) eqn:E.
  - unfold inColumn in E. cbn [created userId status] in E.
    apply andb_true_iff in E as [Hu Hst].
    apply String.eqb_eq in Hu. apply Status_eqb_eq in Hst. subst u s.
    rewrite map_app. cbn [map created order].
    rewrite (nextOrder_contiguous _ (Hc _ _)).
    rewrite <- (length_map order). apply contiguous_snoc, Hc.
  - rewrite app_nil_r. apply Hc.
Qed.

(** *** Reordering a column *)

Lemma indexOf_In id ids : In id ids -> exists i, indexOf id ids = Some i.
Proof.
  induction ids as [|x r IH]; simpl; [contradiction|].
  intros H. destruct (x =? id) eqn:E; [eauto|].
  apply Z.eqb_neq in E. destruct H as [H|H]; [contradiction|].
  destruct (IH H) as [i ->]. eauto.
Qed.

Lemma positionOf_seq ids :
  NoDup ids -> map (positionOf ids) ids = seq 0 (List.length ids).
Proof.
  induction 1 as [|x r Hx Hr IH]; simpl; [reflexivity|].
  unfold positionOf at 1. simpl. rewrite Z.eqb_refl. f_equal.
  rewrite <- seq_shift, <- IH, map_map.
  apply map_ext_in. intros y Hy. unfold positionOf. simpl.
  destruct (x =? y) eqn:E.
  - apply Z.eqb_eq in E. subst. contradiction.
  - destruct (indexOf_In _ _ Hy) as [i ->]. reflexivity.
Qed.

Lemma inColumn_setOrder u s t o : inColumn u s (setOrder t o) = inColumn u s t.
Proof. reflexivity. Qed.

Lemma filter_map_comm {A} (p : A -> bool) (g : A -> A) l :
  (forall x, p (g x) = p x) -> filter p (map g l) = map g (filter p l).
Proof.
  intros H. induction l as [|x l IH]; simpl; [reflexivity|].
  rewrite H. destruct (p x); simpl; now rewrite IH.
Qed.

Lemma reorderColumn_target uid s ids ts :
  NoDup ids ->
  Permutation ids (map _id (column uid s ts)) ->
  contiguous (map order (column uid s (reorderColumn uid s ids ts))).
Proof.
  intros Hnd Hperm. unfold reorderColumn, column.
  rewrite filter_map_comm.
  2:{ intros x. destruct (inColumn uid s x) eqn:E; [|exact E].
      destruct (indexOf (_id x) ids); [rewrite inColumn_setOrder|]; exact E. }
  fold (column uid s ts). set (col := column uid s ts) in *.
  assert (Hmap : map order
                   (map (fun t => if inColumn uid s t
                                  then match indexOf (_id t) ids with
                                       | Some i => setOrder t (Z.of_nat i)
                                       | None => t
                                       end
                                  else t) col)
                 = map Z.of_nat (map (positionOf ids) (map _id col))).
  { rewrite !map_map. apply map_ext_in. intros t Ht.
    assert (Hc : inColumn uid s t = true).
    { unfold col, column in Ht. now apply filter_In in Ht. }
    rewrite Hc. unfold positionOf.
    destruct (indexOf_In (_id t) ids) as [i ->]; [|reflexivity].
    apply (Permutation_in _ (Permutation_sym Hperm)). now apply in_map. }
  unfold contiguous. rewrite Hmap, !length_map.
  apply Permutation_map.
  rewrite <- (length_map _id), <- (Permutation_length Hperm).
  rewrite <- (positionOf_seq ids Hnd).
  apply Permutation_map, Permutation_sym, Hperm.
Qed.

Lemma reorderColumn_other uid s ids ts u' s' :
  (u', s') <> (uid, s) ->
  column u' s' (reorderColumn uid s ids ts) = column u' s' ts.
Proof.
  intros Hne. unfold reorderColumn, column.
  rewrite filter_map_comm.
  2:{ intros x. destruct (inColumn uid s x); [|reflexivity].
      destruct (indexOf (_id x) ids); reflexivity. }
  rewrite <- (map_id (filter (inColumn u' s') ts)) at 2.
  apply map_ext_in. intros t Ht. apply filter_In in Ht as [_ Ht].
  destruct (inColumn uid s t) eqn:E; [|reflexivity].
  unfold inColumn in *.
  apply andb_true_iff in Ht as [H1 H2]. apply andb_true_iff in E as [H3 H4].
  apply String.eqb_eq in H1, H3. apply Status_eqb_eq in H2, H4.
  exfalso. apply Hne. congruence.
Qed.

Lemma ContiguousOrders_reorderColumn uid s ids ts :
  NoDup ids ->
  Permutation ids (map _id (column uid s ts)) ->
  ContiguousOrders ts ->
  ContiguousOrders (reorderColumn uid s ids ts).
Proof.
  intros Hnd Hperm Hc u' s'.
  destruct (String.eqb u' uid && Status_eqb s' s) eqn:E.
  - apply andb_true_iff in E as [H1 H2].
    apply String.eqb_eq in H1. apply Status_eqb_eq in H2. subst.
    now apply reorderColumn_target.
  - rewrite reorderColumn_other; [apply Hc|].
    intros [= -> ->]. now rewrite String.eqb_refl, Status_eqb_refl in E.
Qed.

(** C8: the empty collection has contiguous orders in every column;
    [POST] keeps them contiguous, whatever the request; and reordering a
    column makes its orders contiguous from zero and leaves the other
    columns as they were. *)
Theorem creation_and_reorder_keep_orders_contiguous :
  ContiguousOrders (tasks emptyDB)
  /\ (forall parseDate regex_i session requestBody db,
         ContiguousOrders (tasks db) ->
         ContiguousOrders
           (tasks (snd (POST parseDate regex_i session requestBody db))))
  /\ (forall uid s ids ts,
         NoDup ids ->
         Permutation ids (map _id (column uid s ts)) ->
         contiguous (map order (column uid s (reorderColumn uid s ids ts)))
         /\ (forall u' s', (u', s') <> (uid, s) ->
                           column u' s' (reorderColumn uid s ids ts)
                           = column u' s' ts)).
Proof.
  split; [|split].
  - intros u s. apply Permutation_refl.
  - intros parseDate regex_i session requestBody db Hc.
    destruct (POST_tasks parseDate regex_i session requestBody db)
      as [->|(uid & input & data & _ & _ & _ & ->)]; [exact Hc|].
    now apply ContiguousOrders_created.
  - intros uid s ids ts Hnd Hperm. split.
    + now apply reorderColumn_target.
    + intros u' s'. apply reorderColumn_other.
Qed.

Lemma creation_and_reorder_keep_orders_contiguous_witness :
  let pd := fun _ : string => @None Z in
  let rx := fun _ : string => @None (string -> bool) in
  ContiguousOrders
    (tasks (snd (POST pd rx (sessionFor "u1") (Some firstTaskInput) emptyDB)))
  /\ contiguous
       (map order (column "u1" backlog
                     (reorderColumn "u1" backlog [1; 0] twoTasks))).
Proof.
  destruct creation_and_reorder_keep_orders_contiguous as (H0 & HP & HR).
  split.
  - apply HP. exact H0.
  - apply HR.
    + repeat constructor; simpl; intuition discriminate.
    + apply perm_swap.
Defined.

Example reorder_swaps_orders :
  map (fun t => (_id t, order t)) (reorderColumn "u1" backlog [1; 0] twoTasks)
  = [(0, 1); (1, 0)].
Proof. reflexivity. Qed.

(** Removing a task from the list, or moving it to another column, leaves
    the orders of the others as they were: the column is no longer
    numbered from zero without gaps. *)
Lemma removal_breaks_contiguous_orders :
  ContiguousOrders twoTasks
  /\ ~ ContiguousOrders (handleTaskDelete_update 0 twoTasks)
  /\ ~ ContiguousOrders (handleStatusChange_update 0 done twoTasks).
Proof.
  assert (H1 : ~ contiguous [1]).
  { intros H. apply Permutation_length_1 in H. discriminate. }
  split; [|repeat split]; try (intros H; apply H1; exact (H "u1" backlog)).
  intros u s. unfold twoTasks, column, inColumn, sampleTask.
  cbn [filter userId status].
  destruct (String.eqb "u1" u), s; cbn; apply Permutation_refl.
Qed.

(** So does the store effect of [DELETE] as modelled after the spec. *)
Example deleteTask_leaves_a_gap :
  map order (column "u1" backlog
               (tasks (deleteTask "u1" 0 (mkDB twoTasks 2 [])))) = [1].
Proof. reflexivity. Qed.

(** ** Displayed progress *)

Lemma progressExact_upTo_39 : tableUpTo progressExact 39 = true.
Proof. vm_compute. reflexivity. Qed.

Lemma percentOfChecklist_progressOf items :
  percentOfChecklist items
  = progressOf (List.length (filter checked items)) (List.length items).
Proof. reflexivity. Qed.

Lemma filter_length_le {A} (f : A -> bool) l :
  (List.length (filter f l) <= List.length l)%nat.
Proof.
  induction l as [|x l IH]; simpl; [lia|]. destruct (f x); simpl; lia.
Qed.

Lemma tableUpTo_spec (f : nat -> nat -> bool) bound c n :
  tableUpTo f bound = true ->
  (1 <= n <= bound)%nat -> (c <= n)%nat -> f c n = true.
Proof.
  unfold tableUpTo. intros T Hn Hc. rewrite forallb_forall in T.
  assert (Hin : In n (seq 1 bound)) by (apply in_seq; lia).
  specialize (T n Hin). rewrite forallb_forall in T.
  apply T. apply in_seq. lia.
Qed.

Lemma percentOfChecklist_exact items :
  (0 < List.length items < 40)%nat ->
  JS.to_Z (percentOfChecklist items)
  = Some (roundHalfUp (100 * checkedCount items) (itemCount items)).
Proof.
  intros Hn. rewrite percentOfChecklist_progressOf.
  pose proof (filter_length_le checked items) as Hc.
  pose proof (tableUpTo_spec progressExact 39
                (List.length (filter checked items)) (List.length items)
                progressExact_upTo_39) as T.
  unfold progressExact in T.
  destruct (JS.to_Z (progressOf _ _)) as [r|].
  - f_equal. apply Z.eqb_eq, T; [lia|exact Hc].
  - discriminate T; [lia|exact Hc].
Qed.

(** Up to 100 items, the shown value differs from the exactly rounded
    ratio only where 100 x checked / total lies halfway between two
    integers. *)
Lemma progressExactOffTies_upTo_100 :
  tableUpTo progressExactOffTies 100 = true.
Proof. vm_compute. reflexivity. Qed.

Lemma percentOfChecklist_exact_off_ties items :
  (0 < List.length items <= 100)%nat ->
  isTie (List.length (filter checked items)) (List.length items) = false ->
  JS.to_Z (percentOfChecklist items)
  = Some (roundHalfUp (100 * checkedCount items) (itemCount items)).
Proof.
  intros Hn Htie. rewrite percentOfChecklist_progressOf.
  pose proof (filter_length_le checked items) as Hc.
  pose proof (tableUpTo_spec progressExactOffTies 100
                (List.length (filter checked items)) (List.length items)
                progressExactOffTies_upTo_100) as T.
  unfold progressExactOffTies, progressExact in T. rewrite Htie in T.
  destruct (JS.to_Z (progressOf _ _)) as [r|].
  - f_equal. apply Z.eqb_eq, T; [lia|exact Hc].
  - discriminate T; [lia|exact Hc].
Qed.

(** Up to 100 items the shown value is the exactly rounded ratio, except
    for 23 of 40 and 46 of 80, where it is 57. *)
Lemma progressExactButSlips_upTo_100 :
  tableUpTo progressExactButSlips 100 = true.
Proof. vm_compute. reflexivity. Qed.

Lemma percentOfChecklist_shown items :
  (0 < List.length items <= 100)%nat ->
  JS.to_Z (percentOfChecklist items)
  = Some (if roundingSlip (checkedCount items) (itemCount items) then 57
          else roundHalfUp (100 * checkedCount items) (itemCount items)).
Proof.
  intros Hn. rewrite percentOfChecklist_progressOf.
  pose proof (filter_length_le checked items) as Hc.
  pose proof (tableUpTo_spec progressExactButSlips 100
                (List.length (filter checked items)) (List.length items)
                progressExactButSlips_upTo_100) as T.
  unfold progressExactButSlips in T. unfold checkedCount, itemCount.
  destruct (JS.to_Z (progressOf _ _)) as [r|].
  - f_equal. apply Z.eqb_eq, T; [lia|exact Hc].
  - discriminate T; [lia|exact Hc].
Qed.

Lemma roundingSlip_exact c n :
  roundingSlip c n = true -> roundHalfUp (100 * c) n = 58.
Proof.
  unfold roundingSlip. rewrite orb_true_iff, !andb_true_iff, !Z.eqb_eq.
  intros [[-> ->]|[-> ->]]; reflexivity.
Qed.

(** C2: for a checklist of 1 to 100 items the task dialog and the
    all-tasks view show the integer nearest to 100 x checked / total, a
    tie going up, whatever the stored percent, except for 23 of 40 and
    46 of 80 checked items, where they show 57 and the rounded ratio is
    58; 4 of 4 shows 100 and 3 of 4 shows 75.  The week cells of the
    timeline show the stored percent, whatever the checklist. *)
Theorem checklist_progress_rounds_ratio (task : Task)
    (watchedPercent : option JS.number)
    (Hn : (0 < List.length (items task) <= 100)%nat) :
  let c := checkedCount (items task) in
  let n := itemCount (items task) in
  let shown := Some (if roundingSlip c n then 57
                     else roundHalfUp (100 * c) n) in
  JS.to_Z (checklistProgress (items task) watchedPercent) = shown
  /\ (exists v, checklistBar task = Some v /\ JS.to_Z v = shown)
  /\ percentBar task = None
  /\ (roundingSlip c n = true -> roundHalfUp (100 * c) n = 58)
  /\ timelineBar task
     = (if JS.gt (percent task) (JS.of_Z 0) then Some (percent task)
        else None)
  /\ JS.to_Z (checklistProgress (checklistOf 4 4) watchedPercent) = Some 100
  /\ JS.to_Z (checklistProgress (checklistOf 3 4) watchedPercent) = Some 75.
Proof.
  intros c n shown.
  assert (Hc : (0 <? itemCount (items task)) = true).
  { apply Z.ltb_lt. unfold itemCount. lia. }
  split; [|split; [|split; [|split; [|split; [|split]]]]].
  - unfold checklistProgress, hasChecklist. rewrite Hc.
    now apply percentOfChecklist_shown.
  - exists (percentOfChecklist (items task)). unfold checklistBar.
    rewrite Hc. split; [reflexivity|]. now apply percentOfChecklist_shown.
  - unfold percentBar.
    replace (itemCount (items task) =? 0) with false; [reflexivity|].
    symmetry. apply Z.eqb_neq. unfold itemCount. lia.
  - apply roundingSlip_exact.
  - reflexivity.
  - vm_compute. reflexivity.
  - vm_compute. reflexivity.
Qed.

(** 23 checked items out of 40 and a stored percent of 10:
    [(23 / 40) * 100] is 57.49999999999999 in double precision, so the
    dialog and the all-tasks view show 57, where 100 x 23 / 40 = 57.5
    rounds to 58; the week cell of the timeline shows 10. *)
Lemma checklist_progress_rounds_ratio_witness :
  let task := setItems (setPercent (sampleTask 0 "u1" "Write spec" backlog 0)
                          (JS.of_Z 10))
                       (checklistOf 23 40) in
  checkedCount (items task) = 23
  /\ itemCount (items task) = 40
  /\ JS.to_Z (checklistProgress (items task) (Some (percent task))) = Some 57
  /\ (exists v, checklistBar task = Some v /\ JS.to_Z v = Some 57)
  /\ roundHalfUp (100 * 23) 40 = 58
  /\ timelineBar task = Some (JS.of_Z 10).
Proof.
  intros task.
  assert (Hn : (0 < List.length (items task) <= 100)%nat) by (simpl; lia).
  destruct (checklist_progress_rounds_ratio task (Some (percent task)) Hn)
    as (H1 & H2 & _ & H4 & H5 & _).
  split; [reflexivity|]. split; [reflexivity|].
  split; [exact H1|]. split; [exact H2|].
  split; [exact (H4 eq_refl)|exact H5].
Defined.

(** *** Tasks without a checklist *)

Lemma SFcompare_swap (x y : JS.number) :
  SFcompare y x = option_map CompOpp (SFcompare x y).
Proof.
  destruct x as [sx|sx| |sx mx ex], y as [sy|sy| |sy my ey]; simpl;
    try reflexivity;
    try (destruct sx; reflexivity); try (destruct sy; reflexivity);
    try (destruct sx, sy; reflexivity).
  destruct sx, sy; simpl; try reflexivity; f_equal;
    rewrite (Z.compare_antisym ex ey);
    destruct (ex ?= ey); simpl; try reflexivity;
    change (Pos.compare_cont Eq my mx) with (Pos.compare my mx);
    change (Pos.compare_cont Eq mx my) with (Pos.compare mx my);
    rewrite (Pos.compare_antisym mx my);
    destruct (mx ?= my)%positive; reflexivity.
Qed.

Lemma strict_eq_finite_refl s m e :
  JS.strict_eq (S754_finite s m e) (S754_finite s m e) = true.
Proof.
  unfold JS.strict_eq, SFeqb. simpl.
  rewrite Z.compare_refl.
  change (Pos.compare_cont Eq m m) with (Pos.compare m m).
  rewrite Pos.compare_refl. now destruct s.
Qed.

(** What the spec's clamping does to a percent within [0, 100]. *)
Lemma clampPercent_in_range p :
  JS.le (JS.of_Z 0) p = true -> JS.le p (JS.of_Z 100) = true ->
  clampPercent p = p.
Proof.
  unfold clampPercent, JS.le, JS.gt, SFleb, SFltb. intros H0 H100.
  rewrite (SFcompare_swap (JS.of_Z 0) p), (SFcompare_swap p (JS.of_Z 100)).
  destruct (SFcompare (JS.of_Z 0) p) as [[]|]; try discriminate;
    destruct (SFcompare p (JS.of_Z 100)) as [[]|]; try discriminate;
    reflexivity.
Qed.

(** A percent within [0, 100] is shown as it is, which is also its
    clamping into [0, 100]; a bar is drawn when it is positive. *)
Lemma percent_shown_in_range (task : Task) :
  items task = [] ->
  JS.le (JS.of_Z 0) (percent task) = true ->
  JS.le (percent task) (JS.of_Z 100) = true ->
  let shown := checklistProgress (items task) (Some (percent task)) in
  let clamped := clampPercent (percent task) in
  JS.strict_eq shown clamped = true
  /\ checklistBar task = None
  /\ percentBar task
     = (if JS.gt clamped (JS.of_Z 0) then Some clamped else None)
  /\ timelineBar task
     = (if JS.gt clamped (JS.of_Z 0) then Some clamped else None).
Proof.
  intros Hitems Hlo Hhi shown clamped. unfold clamped.
  rewrite (clampPercent_in_range _ Hlo Hhi).
  unfold shown, checklistBar, percentBar, timelineBar, checklistProgress,
    hasChecklist.
  rewrite Hitems. cbn [itemCount List.length Z.of_nat Z.ltb Z.eqb Z.compare
                       andb].
  assert (H : JS.strict_eq (JS.or_zero (Some (percent task))) (percent task)
              = true).
  { destruct (percent task) as [s|s| |s m e]; simpl.
    - now destruct s.
    - destruct s; [discriminate Hlo|discriminate Hhi].
    - discriminate Hlo.
    - apply strict_eq_finite_refl. }
  repeat split; exact H.
Qed.

Lemma percentInRange_Some p q :
  percentInRange p = Some q ->
  JS.le (JS.of_Z 0) q = true /\ JS.le q (JS.of_Z 100) = true.
Proof.
  unfold percentInRange, JS.ge.
  destruct (SFleb (JS.of_Z 0) p && JS.le p (JS.of_Z 100)) eqn:E;
    [|discriminate].
  intros [= <-]. now apply andb_true_iff in E.
Qed.

(** The percent of validated data lies in [0, 100]. *)
Lemma taskSchema_parse_percent parseDate input data :
  taskSchema_parse parseDate input = Ok data ->
  JS.le (JS.of_Z 0) (d_percent data) = true
  /\ JS.le (d_percent data) (JS.of_Z 100) = true.
Proof.
  intros H. apply taskSchema_parse_Ok in H as [Hi ->].
  unfold taskSchema_issues in Hi.
  do 6 (apply app_eq_nil in Hi as [_ Hi]).
  unfold taskSchema_output. cbn [d_percent].
  destruct (in_percent input) as [p|]; [|split; reflexivity].
  unfold optionalField in *.
  destruct (percentInRange p) as [q|] eqn:E; [|discriminate].
  exact (percentInRange_Some p q E).
Qed.

Lemma GET_tasks parseDate regex_i session searchParams db :
  tasks (snd (GET parseDate regex_i session searchParams db)) = tasks db.
Proof.
  destruct (sessionUserId session) as [uid|] eqn:Hs.
  - rewrite (GET_authenticated _ _ _ _ _ _ Hs).
    destruct (getTasksQuerySchema_parse _ _); [|reflexivity].
    destruct (forallb _ _); reflexivity.
  - now rewrite (GET_unauthenticated _ _ _ _ _ Hs).
Qed.

(** Every task of a store the handlers can produce has its percent
    within [0, 100]. *)
Lemma reachable_percent_in_range parseDate regex_i db :
  reachable parseDate regex_i db ->
  forall task, In task (tasks db) ->
    JS.le (JS.of_Z 0) (percent task) = true
    /\ JS.le (percent task) (JS.of_Z 100) = true.
Proof.
  induction 1 as [|db session searchParams _ IH|db session requestBody _ IH];
    intros task Hin.
  - contradiction.
  - rewrite GET_tasks in Hin. now apply IH.
  - destruct (POST_tasks parseDate regex_i session requestBody db)
      as [E|(uid & input & data & _ & _ & Hv & E)];
      rewrite E in Hin; [now apply IH|].
    apply in_app_or in Hin as [Hin|[<-|[]]]; [now apply IH|].
    exact (taskSchema_parse_percent parseDate input data Hv).
Qed.

(** C3: for every task without a checklist in a store the handlers can
    produce, the task dialog shows the stored percent clamped into
    [0, 100]; the all-tasks view and the week cells of the timeline draw
    their percent bar at the clamped percent, and draw none when it is
    0. *)
Theorem percent_shown_when_no_checklist
    (parseDate : string -> option Z)
    (regex_i : string -> option (string -> bool))
    (db : DB) (task : Task)
    (Hdb : reachable parseDate regex_i db)
    (Hin : In task (tasks db))
    (Hitems : items task = []) :
  let shown := checklistProgress (items task) (Some (percent task)) in
  let clamped := clampPercent (percent task) in
  JS.strict_eq shown clamped = true
  /\ checklistBar task = None
  /\ percentBar task
     = (if JS.gt clamped (JS.of_Z 0) then Some clamped else None)
  /\ timelineBar task
     = (if JS.gt clamped (JS.of_Z 0) then Some clamped else None).
Proof.
  destruct (reachable_percent_in_range parseDate regex_i db Hdb task Hin)
    as [Hlo Hhi].
  now apply percent_shown_in_range.
Qed.

Lemma percent_shown_when_no_checklist_witness :
  let db := snd (POST (fun _ => None) (fun _ => None) (sessionFor "u1")
                   (Some percent40Input) emptyDB) in
  exists task,
    tasks db = [task]
    /\ items task = []
    /\ JS.to_Z (percent task) = Some 40
    /\ JS.strict_eq (checklistProgress (items task) (Some (percent task)))
         (clampPercent (percent task)) = true
    /\ percentBar task = Some (clampPercent (percent task))
    /\ timelineBar task = Some (clampPercent (percent task)).
Proof.
  intros db.
  assert (Hdb : reachable (fun _ => None) (fun _ => None) db)
    by (apply reachable_POST, reachable_empty).
  exists (created emptyDB "u1"
            (taskSchema_output (fun _ => None) percent40Input)).
  destruct (percent_shown_when_no_checklist (fun _ => None) (fun _ => None)
              db _ Hdb (or_introl eq_refl) eq_refl) as (H1 & _ & H3 & H4).
  split; [reflexivity|]. split; [reflexivity|]. split; [reflexivity|].
  split; [exact H1|]. split; [exact H3|exact H4].
Defined.

(** The task schema rejects a percent of 150, it does not clamp it. *)
Example percent_150_rejected parseDate :
  taskSchema_parse parseDate
    (mkInput (Some "Write spec") None None None None None None None
             (Some (JS.of_Z 150)))
  = Throw (ZodError [mkIssue "percent" "Number must be between 0 and 100"]).
Proof. reflexivity. Qed.

(** ** Search *)

Lemma startsWith_spec q s :
  startsWith q s = true <-> exists post, s = (q ++ post)%string.
Proof.
  revert s. induction q as [|a q IH]; intros s; simpl.
  - split; [intros _; now exists s|reflexivity].
  - destruct s as [|b s].
    + split; [discriminate|]. intros [post H]. discriminate.
    + rewrite andb_true_iff, IH. split.
      * intros [Hab [post ->]]. apply Ascii.eqb_eq in Hab. subst.
        now exists post.
      * intros [post [= -> ->]]. split; [apply Ascii.eqb_refl|now exists post].
Qed.

(** [includes] is the occurrence of [q] as a contiguous part of [s]. *)
Lemma includes_spec s q :
  includes s q = true <-> exists pre post, s = (pre ++ q ++ post)%string.
Proof.
  induction s as [|c s IH].
  - simpl. rewrite orb_false_r, startsWith_spec. split.
    + intros [post H]. now exists EmptyString, post.
    + intros [pre [post H]]. destruct pre; [now exists post|discriminate].
  - cbn [includes]. rewrite orb_true_iff, startsWith_spec, IH. split.
    + intros [[post H]|[pre [post H]]].
      * now exists EmptyString, post.
      * exists (String c pre), post. simpl. now rewrite H.
    + intros [pre [post H]]. destruct pre as [|c' pre].
      * left. now exists post.
      * right. injection H as _ H. now exists pre, post.
Qed.

(** The search of the all-tasks view keeps a task exactly when the
    lower-cased query occurs in its lower-cased title or description. *)
Lemma searchMatches_spec searchQuery task :
  searchMatches searchQuery task = true <->
  includes (toLowerCase (title task)) (toLowerCase searchQuery) = true
  \/ exists d, description task = Some d
               /\ includes (toLowerCase d) (toLowerCase searchQuery) = true.
Proof.
  unfold searchMatches. rewrite orb_true_iff.
  destruct (description task) as [d|].
  - rewrite andb_true_iff. split.
    + intros [H|[_ H]]; [now left|right; now exists d].
    + intros [H|[d' [[= <-] H]]]; [now left|].
      destruct d as [|c d]; [|right; now split].
      left. simpl in H. rewrite orb_false_r in H.
      destruct (toLowerCase searchQuery); [|discriminate].
      now destruct (toLowerCase (title task)).
  - split; [intros [H|H]; [now left|discriminate]|].
    intros [H|[d [H _]]]; [now left|discriminate].
Qed.

(** C7: the query [.] is no part of the title [abc], and the search of
    the all-tasks view does not keep the task; [GET] with [q=.] returns
    it, because the query is handed to the store as a regular expression,
    in which [.] stands for any character. *)
Theorem GET_search_is_a_regular_expression
    (parseDate : string -> option Z)
    (regex_i : string -> option (string -> bool))
    (search : string -> bool)
    (Hdot : regex_i "." = Some search)
    (Hany : search "abc" = true) :
  responseTasks
    (fst (GET parseDate regex_i (sessionFor "u1") [("q", ".")] abcDB))
  = [abcTask]
  /\ includes (toLowerCase (title abcTask)) (toLowerCase ".") = false
  /\ description abcTask = None
  /\ filterTasks [abcTask] "." "all" "all" = [].
Proof.
  split; [|repeat split].
  rewrite (GET_authenticated parseDate regex_i (sessionFor "u1") "u1"
             [("q", ".")] abcDB eq_refl).
  simpl. rewrite Hdot. simpl. rewrite Hany. reflexivity.
Qed.

Lemma GET_search_is_a_regular_expression_witness :
  responseTasks
    (fst (GET (fun _ => None) wildcardEngine (sessionFor "u1") [("q", ".")]
            abcDB))
  = [abcTask]
  /\ filterTasks [abcTask] "." "all" "all" = [].
Proof.
  destruct (GET_search_is_a_regular_expression (fun _ => None) wildcardEngine
              (searchFrom ".") eq_refl eq_refl) as (H1 & _ & _ & H4).
  split; [exact H1|exact H4].
Defined.

(** * Further properties of the route handlers *)


Section ListingFacts.

Variable parseDate : string -> option Z.
Variable regex_i : string -> option (string -> bool).

Lemma insertSorted_Permutation le x l :
  Permutation (insertSorted le x l) (x :: l).
Proof.
  induction l as [|y l IH]; simpl; [apply Permutation_refl|].
  destruct (le x y); [apply Permutation_refl|].
  eapply perm_trans; [apply perm_skip, IH|apply perm_swap].
Qed.

Lemma sortBy_Permutation le l : Permutation (sortBy le l) l.
Proof.
  induction l as [|x l IH]; simpl; [apply perm_nil|].
  eapply perm_trans; [apply insertSorted_Permutation|now apply perm_skip].
Qed.

Lemma insertSorted_Sorted (le : Task -> Task -> bool) x l :
  (forall a b, le a b = true \/ le b a = true) ->
  Sorted (fun a b => le a b = true) l ->
  Sorted (fun a b => le a b = true) (insertSorted le x l).
Proof.
  intros Htot. induction l as [|y l IH]; intros Hs; simpl.
  - repeat constructor.
  - destruct (le x y) eqn:E.
    + constructor; [exact Hs|constructor; exact E].
    + apply Sorted_inv in Hs as [Hs Hhd].
      constructor; [now apply IH|].
      destruct l as [|z l]; simpl.
      * constructor. destruct (Htot x y); congruence.
      * destruct (le x z); constructor.
        -- destruct (Htot x y); congruence.
        -- now apply HdRel_inv in Hhd.
Qed.

Lemma sortBy_Sorted (le : Task -> Task -> bool) l :
  (forall a b, le a b = true \/ le b a = true) ->
  Sorted (fun a b => le a b = true) (sortBy le l).
Proof.
  intros Htot. induction l as [|x l IH]; simpl; [constructor|].
  now apply insertSorted_Sorted.
Qed.

Lemma byStatusThenOrder_total a b :
  byStatusThenOrder a b = true \/ byStatusThenOrder b a = true.
Proof.
  unfold byStatusThenOrder.
  destruct (Z.lt_trichotomy (statusRank (status a)) (statusRank (status b)))
    as [H|[H|H]].
  - left. apply orb_true_iff. left. now apply Z.ltb_lt.
  - rewrite H, Z.eqb_refl, Z.ltb_irrefl. simpl.
    destruct (Z.le_ge_cases (order a) (order b)) as [Ho|Ho];
      [left|right]; now apply Z.leb_le.
  - right. apply orb_true_iff. left. now apply Z.ltb_lt.
Qed.

(** The search pattern, when there is one, is accepted by the engine. *)
Lemma accepted_getFilter uid query :
  forallb (accepted regex_i) (getFilter uid query) = true <->
  (forall q, orUndefined (q_q query) = Some q -> regex_i q <> None).
Proof.
  unfold getFilter.
  destruct (orUndefined (q_q query)) as [q|].
  - destruct (q_status query), (q_from query), (q_to query); simpl;
      destruct (regex_i q) eqn:E; simpl; split;
      try reflexivity; try discriminate;
      try (intros _ q' [= <-]; congruence);
      intros H; exfalso; apply (H q eq_refl); exact E.
  - destruct (q_status query), (q_from query), (q_to query); simpl;
      split; try reflexivity; intros _ q' [=].
Qed.

Lemma opt_ge_spec (o : option Z) v :
  match o with Some d => v <=? d | None => false end = true
  <-> exists d, o = Some d /\ v <= d.
Proof.
  destruct o as [d|].
  - rewrite Z.leb_le. split; [intros H; now exists d|].
    now intros (d' & [= <-] & H).
  - split; [discriminate|]. now intros (d & [=] & _).
Qed.

Lemma opt_le_spec (o : option Z) v :
  match o with Some d => d <=? v | None => false end = true
  <-> exists d, o = Some d /\ d <= v.
Proof.
  destruct o as [d|].
  - rewrite Z.leb_le. split; [intros H; now exists d|].
    now intros (d' & [= <-] & H).
  - split; [discriminate|]. now intros (d & [=] & _).
Qed.

(** What a task must satisfy to pass the filter [GET] builds. *)
Lemma matchesAll_getFilter uid query t :
  matchesAll regex_i (getFilter uid query) t = true <->
  userId t = uid
  /\ (forall s, q_status query = Some s -> status t = s)
  /\ (forall q, orUndefined (q_q query) = Some q ->
        exists search, regex_i q = Some search
          /\ (search (title t) = true
              \/ exists d, description t = Some d /\ search d = true))
  /\ (forall from, q_from query = Some from ->
        (exists s, startAt t = Some s /\ from <= s)
        \/ (exists d, dueAt t = Some d /\ from <= d))
  /\ (forall to, q_to query = Some to ->
        (exists s, startAt t = Some s /\ s <= to)
        \/ (exists d, dueAt t = Some d /\ d <= to)).
Proof.
  clear parseDate. unfold matchesAll, getFilter.
  rewrite !forallb_app, !andb_true_iff. cbn [forallb matches].
  rewrite andb_true_r, String.eqb_eq.
  assert (Hst : forallb (fun c => matches regex_i c t)
                  match q_status query with
                  | Some s => [StatusIs s]
                  | None => []
                  end = true
                <-> forall s, q_status query = Some s -> status t = s).
  { destruct (q_status query) as [s|]; simpl.
    - rewrite andb_true_r, Status_eqb_eq. split.
      + now intros H s' [= <-].
      + intros H. now apply H.
    - split; [intros _ s [=]|reflexivity]. }
  assert (Hq : forallb (fun c => matches regex_i c t)
                 match orUndefined (q_q query) with
                 | Some q => [OrC [RegexI f_title q; RegexI f_description q]]
                 | None => []
                 end = true
               <-> forall q, orUndefined (q_q query) = Some q ->
                     exists search, regex_i q = Some search
                       /\ (search (title t) = true
                           \/ exists d, description t = Some d
                                        /\ search d = true)).
  { destruct (orUndefined (q_q query)) as [q|]; simpl.
    - rewrite andb_true_r, orb_false_r, orb_true_iff. split.
      + intros H q' [= <-]. destruct (regex_i q) as [search|];
          [|destruct H; discriminate].
        exists search. split; [reflexivity|].
        destruct H as [H|H]; [now left|right].
        destruct (description t) as [d|]; [|discriminate]. now exists d.
      + intros H. destruct (H q eq_refl) as (search & -> & [Ht|(d & -> & Hd)]);
          [now left|now right].
    - split; [intros _ q [=]|reflexivity]. }
  assert (Hd : forallb (fun c => matches regex_i c t)
                 match q_from query, q_to query with
                 | None, None => []
                 | from, to =>
                     [AndC (match from with
                            | Some v => [OrC [Gte f_startAt v; Gte f_dueAt v]]
                            | None => []
                            end
                            ++ match to with
                               | Some v =>
                                   [OrC [Lte f_startAt v; Lte f_dueAt v]]
                               | None => []
                               end)]
                 end = true
               <-> (forall from, q_from query = Some from ->
                      (exists s, startAt t = Some s /\ from <= s)
                      \/ (exists d, dueAt t = Some d /\ from <= d))
                   /\ (forall to, q_to query = Some to ->
                         (exists s, startAt t = Some s /\ s <= to)
                         \/ (exists d, dueAt t = Some d /\ d <= to))).
  { assert (Hge : forall v,
               (match startAt t with Some d => v <=? d | None => false end
                || (match dueAt t with Some d => v <=? d | None => false end
                    || false)) = true
               <-> (exists s, startAt t = Some s /\ v <= s)
                   \/ (exists d, dueAt t = Some d /\ v <= d)).
    { intros v. now rewrite orb_false_r, orb_true_iff, !opt_ge_spec. }
    assert (Hle : forall v,
               (match startAt t with Some d => d <=? v | None => false end
                || (match dueAt t with Some d => d <=? v | None => false end
                    || false)) = true
               <-> (exists s, startAt t = Some s /\ s <= v)
                   \/ (exists d, dueAt t = Some d /\ d <= v)).
    { intros v. now rewrite orb_false_r, orb_true_iff, !opt_le_spec. }
    destruct (q_from query) as [f|], (q_to query) as [u|];
      cbn [forallb matches app dateOf existsb]; rewrite ?andb_true_r.
    - rewrite andb_true_iff, Hge, Hle. split.
      + intros [H1 H2]. split; intros v [= <-]; assumption.
      + intros [H1 H2]. split; [now apply H1|now apply H2].
    - rewrite Hge. split.
      + intros H. split; [now intros v [= <-]|intros v [=]].
      + intros [H _]. now apply H.
    - rewrite Hle. split.
      + intros H. split; [intros v [=]|now intros v [= <-]].
      + intros [_ H]. now apply H.
    - split; [intros _; split; intros v [=]|reflexivity]. }
  rewrite Hst, Hq, Hd. tauto.
Qed.

End ListingFacts.

Lemma Sorted_weaken_In {A} (R R' : A -> A -> Prop) l :
  (forall a b, In a l -> In b l -> R a b -> R' a b) ->
  Sorted R l -> Sorted R' l.
Proof.
  induction l as [|x l IH]; intros HR Hs; [constructor|].
  apply Sorted_inv in Hs as [Hs Hhd]. constructor.
  - apply IH; [|exact Hs]. intros a b Ha Hb. apply HR; now right.
  - destruct l as [|y l]; constructor.
    apply HdRel_inv in Hhd. apply HR; [now left|right; now left|exact Hhd].
Qed.

(** The answer of [GET] to a request that passes every check. *)
Lemma GET_accepted parseDate regex_i session uid searchParams query db :
  sessionUserId session = Some uid ->
  getTasksQuerySchema_parse parseDate (rawQueryOf searchParams) = Ok query ->
  (forall q, orUndefined (q_q query) = Some q -> regex_i q <> None) ->
  fst (GET parseDate regex_i session searchParams db)
  = json (TasksBody
            (sortBy byStatusThenOrder
               (filter (matchesAll regex_i (getFilter uid query))
                  (tasks db)))) 200.
Proof.
  intros Hs Hq Hacc.
  rewrite (GET_authenticated _ _ _ _ _ _ Hs), Hq.
  now rewrite (proj2 (accepted_getFilter regex_i uid query) Hacc).
Qed.

(** X1: for a valid session, a valid query and a search pattern the
    engine accepts, [GET] answers 200 with the tasks that pass its filter,
    each as often as it is stored, in ascending order of status name
    ([backlog], [done], [in_progress]) and, within a status, of order. *)
Theorem GET_response_sorted
    (parseDate : string -> option Z)
    (regex_i : string -> option (string -> bool))
    (session : option Session) (uid : string)
    (searchParams : list (string * string)) (query : Query) (db : DB)
    (Hs : sessionUserId session = Some uid)
    (Hq : getTasksQuerySchema_parse parseDate (rawQueryOf searchParams)
          = Ok query)
    (Hacc : forall q, orUndefined (q_q query) = Some q -> regex_i q <> None) :
  let response := fst (GET parseDate regex_i session searchParams db) in
  status_code response = 200
  /\ Permutation (responseTasks response)
       (filter (matchesAll regex_i (getFilter uid query)) (tasks db))
  /\ Sorted (fun a b => byStatusThenOrder a b = true) (responseTasks response).
Proof.
  intros response. unfold response.
  rewrite (GET_accepted _ _ _ _ _ _ _ Hs Hq Hacc).
  unfold responseTasks. cbn [body status_code].
  split; [reflexivity|]. split.
  - apply sortBy_Permutation.
  - apply sortBy_Sorted, byStatusThenOrder_total.
Qed.

Lemma GET_response_sorted_witness :
  let response :=
    fst (GET (fun _ => None) wildcardEngine (sessionFor "u1")
           [("q", "task")]
           (mkDB [sampleTask 0 "u1" "Second task" in_progress 0;
                  sampleTask 1 "u1" "First task" done 0;
                  sampleTask 2 "u1" "Other" backlog 0] 3 [])) in
  status_code response = 200
  /\ map _id (responseTasks response) = [1; 0].
Proof.
  intros response.
  destruct (GET_response_sorted (fun _ => None) wildcardEngine
              (sessionFor "u1") "u1" [("q", "task")]
              (mkQuery None (Some "task") None None)
              (mkDB [sampleTask 0 "u1" "Second task" in_progress 0;
                     sampleTask 1 "u1" "First task" done 0;
                     sampleTask 2 "u1" "Other" backlog 0] 3 [])
              eq_refl eq_refl)
    as (H & _).
  - intros q [= <-]. discriminate.
  - split; [exact H|reflexivity].
Defined.

(** X2: under the same conditions a stored task is in the answer exactly
    when it belongs to the session's user, has the requested status,
    matches the search pattern in its title or its description, has a
    start or due date not before [from] and a start or due date not after
    [to], each condition applying only when its parameter is given; a
    task without dates is in no answer to a request that gives [from] or
    [to]. *)
Theorem GET_filter_semantics
    (parseDate : string -> option Z)
    (regex_i : string -> option (string -> bool))
    (session : option Session) (uid : string)
    (searchParams : list (string * string)) (query : Query) (db : DB)
    (t : Task)
    (Hs : sessionUserId session = Some uid)
    (Hq : getTasksQuerySchema_parse parseDate (rawQueryOf searchParams)
          = Ok query)
    (Hacc : forall q, orUndefined (q_q query) = Some q -> regex_i q <> None) :
  In t (responseTasks (fst (GET parseDate regex_i session searchParams db)))
  <->
  In t (tasks db)
  /\ userId t = uid
  /\ (forall s, q_status query = Some s -> status t = s)
  /\ (forall q, orUndefined (q_q query) = Some q ->
        exists search, regex_i q = Some search
          /\ (search (title t) = true
              \/ exists d, description t = Some d /\ search d = true))
  /\ (forall from, q_from query = Some from ->
        (exists s, startAt t = Some s /\ from <= s)
        \/ (exists d, dueAt t = Some d /\ from <= d))
  /\ (forall to, q_to query = Some to ->
        (exists s, startAt t = Some s /\ s <= to)
        \/ (exists d, dueAt t = Some d /\ d <= to)).
Proof.
  rewrite (GET_accepted _ _ _ _ _ _ _ Hs Hq Hacc).
  unfold responseTasks. cbn [body].
  rewrite In_sortBy, filter_In, matchesAll_getFilter. tauto.
Qed.

Lemma GET_filter_semantics_witness :
  let pd := fun s : string => if String.eqb s "d5" then Some 5 else None in
  let dated :=
    mkTask 0 "u1" "Dated" None backlog med 0 [] (Some 3) (Some 7) []
           (JS.of_Z 0) in
  let db := mkDB [dated; sampleTask 1 "u1" "Undated" backlog 1] 2 [] in
  In dated
     (responseTasks
        (fst (GET pd wildcardEngine (sessionFor "u1") [("from", "d5")] db)))
  /\ ~ In (sampleTask 1 "u1" "Undated" backlog 1)
       (responseTasks
          (fst (GET pd wildcardEngine (sessionFor "u1") [("from", "d5")] db))).
Proof.
  intros pd dated db.
  assert (Hacc : forall q,
             orUndefined (q_q (mkQuery None None (Some 5) None)) = Some q ->
             wildcardEngine q <> None) by (intros q [=]).
  split.
  - apply (GET_filter_semantics pd wildcardEngine (sessionFor "u1") "u1"
             [("from", "d5")] (mkQuery None None (Some 5) None) db dated
             eq_refl eq_refl Hacc).
    split; [now left|]. split; [reflexivity|].
    split; [intros s [=]|]. split; [intros q [=]|].
    split; [|intros to [=]].
    intros from [= <-]. right. exists 7. split; [reflexivity|lia].
  - intros Hin.
    apply (GET_filter_semantics pd wildcardEngine (sessionFor "u1") "u1"
             [("from", "d5")] (mkQuery None None (Some 5) None) db
             (sampleTask 1 "u1" "Undated" backlog 1)
             eq_refl eq_refl Hacc) in Hin.
    destruct Hin as (_ & _ & _ & _ & Hfrom & _).
    destruct (Hfrom 5 eq_refl) as [(s & [=] & _)|(d & [=] & _)].
Defined.

(** X3: [GET] never changes the collection or the id supply; it answers
    401 exactly when the session has no user id, 500 exactly when, for a
    valid session, the query fails validation or the engine rejects the
    search pattern, and 200 otherwise: it never answers 400. *)
Theorem GET_read_only_and_status_codes
    (parseDate : string -> option Z)
    (regex_i : string -> option (string -> bool))
    (session : option Session)
    (searchParams : list (string * string)) (db : DB) :
  let result := GET parseDate regex_i session searchParams db in
  tasks (snd result) = tasks db
  /\ nextId (snd result) = nextId db
  /\ (status_code (fst result) = 401 <-> sessionUserId session = None)
  /\ (status_code (fst result) = 500 <->
      exists uid, sessionUserId session = Some uid
        /\ match getTasksQuerySchema_parse parseDate (rawQueryOf searchParams)
           with
           | Ok query =>
               exists q, orUndefined (q_q query) = Some q /\ regex_i q = None
           | Throw _ => True
           end)
  /\ (status_code (fst result) = 200
      \/ status_code (fst result) = 401
      \/ status_code (fst result) = 500).
Proof.
  intros result. unfold result.
  destruct (sessionUserId session) as [uid|] eqn:Hs.
  - rewrite (GET_authenticated _ _ _ _ _ _ Hs).
    destruct (getTasksQuerySchema_parse _ _) as [query|e].
    + destruct (forallb _ _) eqn:Hacc;
        cbn [fst snd tasks nextId logged status_code internalError];
        (split; [reflexivity|]); (split; [reflexivity|]);
        (split; [split; discriminate|]); (split; [|auto]).
      * split; [discriminate|]. intros (uid' & _ & q & Hq & Hn).
        exfalso. exact (proj1 (accepted_getFilter _ _ _) Hacc q Hq Hn).
      * split; [|reflexivity]. intros _. exists uid. split; [reflexivity|].
        destruct (orUndefined (q_q query)) as [q|] eqn:Hq.
        -- exists q. split; [reflexivity|].
           destruct (regex_i q) eqn:E; [|reflexivity].
           assert (F : forallb (accepted regex_i) (getFilter uid query) = true).
           { apply accepted_getFilter. intros q' Hq'.
             rewrite Hq in Hq'. injection Hq' as <-. congruence. }
           congruence.
        -- assert (F : forallb (accepted regex_i) (getFilter uid query) = true).
           { apply accepted_getFilter. intros q' Hq'.
             rewrite Hq in Hq'. discriminate. }
           congruence.
    + cbn [fst snd status_code internalError].
      split; [reflexivity|]. split; [reflexivity|].
      split; [split; discriminate|]. split; [|auto].
      split; [|reflexivity]. intros _. now exists uid.
  - rewrite (GET_unauthenticated _ _ _ _ _ Hs).
    cbn [fst snd status_code unauthorized].
    split; [reflexivity|]. split; [reflexivity|].
    split; [split; reflexivity|]. split; [|auto].
    split; [discriminate|]. intros (uid & [=] & _).
Qed.

Lemma searchParams_get_ineffective params name :
  (forall v, In (name, v) params -> v = "") ->
  orUndefined (searchParams_get params name) = None.
Proof.
  induction params as [|[k v] rest IH]; intros H; simpl; [reflexivity|].
  destruct (String.eqb k name) eqn:E.
  - apply String.eqb_eq in E. subst k.
    rewrite (H v (or_introl eq_refl)). reflexivity.
  - apply IH. intros v' Hv'. apply H. now right.
Qed.

(** X4: parameters of other names, and parameters given an empty value,
    do not filter: for a valid session such a request is answered 200 with
    every stored task of the session's user, each once per stored copy,
    and with no other task. *)
Theorem GET_unfiltered_lists_all_own_tasks
    (parseDate : string -> option Z)
    (regex_i : string -> option (string -> bool))
    (session : option Session) (uid : string)
    (searchParams : list (string * string)) (db : DB)
    (Hs : sessionUserId session = Some uid)
    (Hparams : forall k v, In (k, v) searchParams ->
                           In k ["status"; "q"; "from"; "to"] -> v = "") :
  let response := fst (GET parseDate regex_i session searchParams db) in
  status_code response = 200
  /\ Permutation (responseTasks response)
       (filter (fun t => String.eqb (userId t) uid) (tasks db))
  /\ (forall t, In t (responseTasks response)
                <-> In t (tasks db) /\ userId t = uid).
Proof.
  intros response.
  assert (Hraw : rawQueryOf searchParams = mkRawQuery None None None None).
  { unfold rawQueryOf.
    rewrite !searchParams_get_ineffective; [reflexivity| | | |];
      intros v Hv; apply (Hparams _ v Hv); simpl; auto. }
  assert (Hq : getTasksQuerySchema_parse parseDate (rawQueryOf searchParams)
               = Ok (mkQuery None None None None)) by now rewrite Hraw.
  assert (Hacc : forall q,
             orUndefined (q_q (mkQuery None None None None)) = Some q ->
             regex_i q <> None) by (intros q [=]).
  unfold response. rewrite (GET_accepted _ _ _ _ _ _ _ Hs Hq Hacc).
  unfold responseTasks. cbn [body status_code].
  change (getFilter uid (mkQuery None None None None)) with [UserIdIs uid].
  assert (Hext : forall t, matchesAll regex_i [UserIdIs uid] t
                           = String.eqb (userId t) uid).
  { intros t. unfold matchesAll. simpl. now rewrite andb_true_r. }
  rewrite (filter_ext _ _ Hext).
  split; [reflexivity|]. split; [apply sortBy_Permutation|].
  intros t. now rewrite In_sortBy, filter_In, String.eqb_eq.
Qed.

Lemma GET_unfiltered_lists_all_own_tasks_witness :
  let response :=
    fst (GET (fun _ => None) (fun _ => None) (sessionFor "u1")
           [("scope", "all"); ("status", "")] twoUsersDB) in
  status_code response = 200
  /\ responseTasks response = [sampleTask 0 "u1" "Write spec" backlog 0].
Proof.
  intros response.
  destruct (GET_unfiltered_lists_all_own_tasks (fun _ => None) (fun _ => None)
              (sessionFor "u1") "u1" [("scope", "all"); ("status", "")]
              twoUsersDB eq_refl) as (H & _).
  - intros k v [[= <- <-]|[[= <- <-]|[]]] Hk; [|reflexivity].
    simpl in Hk. intuition discriminate.
  - split; [exact H|reflexivity].
Defined.

(** X5: for a valid session, a request whose first [status] parameter
    names a column and which gives no search text and no dates is
    answered with exactly the tasks of that column of the user, in
    ascending order of their order field. *)
Theorem GET_status_lists_column_by_order
    (parseDate : string -> option Z)
    (regex_i : string -> option (string -> bool))
    (session : option Session) (uid name : string) (st : Status)
    (rest : list (string * string)) (db : DB)
    (Hs : sessionUserId session = Some uid)
    (Hname : parseStatus name = Some st)
    (Hrest : forall k v, In (k, v) rest ->
                         In k ["q"; "from"; "to"] -> v = "") :
  let response :=
    fst (GET parseDate regex_i session (("status", name) :: rest) db) in
  status_code response = 200
  /\ Permutation (responseTasks response) (column uid st (tasks db))
  /\ Sorted (fun a b => order a <= order b) (responseTasks response).
Proof.
  intros response.
  assert (Hne : nonEmpty name = true).
  { destruct name; [discriminate Hname|reflexivity]. }
  assert (Hraw : rawQueryOf (("status", name) :: rest)
                 = mkRawQuery (Some name) None None None).
  { unfold rawQueryOf. cbn [searchParams_get].
    change (String.eqb "status" "status") with true.
    change (String.eqb "status" "q") with false.
    change (String.eqb "status" "from") with false.
    change (String.eqb "status" "to") with false.
    cbn [orUndefined]. rewrite Hne.
    rewrite !searchParams_get_ineffective; [reflexivity| | |];
      intros v Hv; apply (Hrest _ v Hv); simpl; auto. }
  assert (Hq : getTasksQuerySchema_parse parseDate
                 (rawQueryOf (("status", name) :: rest))
               = Ok (mkQuery (Some st) None None None)).
  { rewrite Hraw. unfold getTasksQuerySchema_parse,
      getTasksQuerySchema_issues, getTasksQuerySchema_output, optionalField.
    cbn [raw_status raw_q raw_from raw_to]. now rewrite Hname. }
  assert (Hacc : forall q,
             orUndefined (q_q (mkQuery (Some st) None None None)) = Some q ->
             regex_i q <> None) by (intros q [=]).
  unfold response. rewrite (GET_accepted _ _ _ _ _ _ _ Hs Hq Hacc).
  unfold responseTasks. cbn [body status_code].
  change (getFilter uid (mkQuery (Some st) None None None))
    with [UserIdIs uid; StatusIs st].
  rewrite column_filter.
  split; [reflexivity|]. split; [apply sortBy_Permutation|].
  eapply Sorted_weaken_In;
    [|apply sortBy_Sorted, byStatusThenOrder_total].
  intros a b Ha Hb Hab.
  assert (Hst : forall t, In t (sortBy byStatusThenOrder
                                  (column uid st (tasks db))) ->
                          status t = st).
  { intros t Ht. apply In_sortBy, filter_In in Ht as [_ Ht].
    apply andb_true_iff in Ht as [_ Ht]. now apply Status_eqb_eq. }
  unfold byStatusThenOrder in Hab.
  rewrite (Hst a Ha), (Hst b Hb), Z.ltb_irrefl, Z.eqb_refl in Hab.
  now apply Z.leb_le.
Qed.

Lemma GET_status_lists_column_by_order_witness :
  let response :=
    fst (GET (fun _ => None) (fun _ => None) (sessionFor "u1")
           [("status", "backlog")]
           (mkDB (rev twoTasks) 2 [])) in
  status_code response = 200
  /\ map order (responseTasks response) = [0; 1].
Proof.
  intros response.
  destruct (GET_status_lists_column_by_order (fun _ => None) (fun _ => None)
              (sessionFor "u1") "u1" "backlog" backlog []
              (mkDB (rev twoTasks) 2 []) eq_refl eq_refl
              (fun k v (H : In (k, v) []) => False_ind _ H)) as (H & _).
  split; [exact H|reflexivity].
Defined.

(** ** Creation: outcomes and composition *)

Lemma taskSchema_parse_Throw parseDate input e :
  taskSchema_parse parseDate input = Throw e ->
  e = ZodError (taskSchema_issues parseDate input)
  /\ taskSchema_issues parseDate input <> [].
Proof.
  unfold taskSchema_parse.
  destruct (taskSchema_issues parseDate input) as [|i l]; [discriminate|].
  intros [= <-]. split; [reflexivity|discriminate].
Qed.

Lemma POST_malformed_body parseDate regex_i session uid db :
  sessionUserId session = Some uid ->
  POST parseDate regex_i session None db = (internalError, db).
Proof. intros Hs. unfold POST, try_catch. now rewrite Hs. Qed.

(** X6: [POST] answers 401 exactly when the session has no user id, 500
    exactly when (with a valid session) the body is not JSON, 400 exactly
    when the body fails validation, then with the non-empty list of all
    issues, and 201 otherwise.  Unless it answers 201 the store is left
    exactly as it was, no operation being issued; when it answers 201 the
    created task, owned by the session's user, is appended and every
    stored task is kept. *)
Theorem POST_outcomes
    (parseDate : string -> option Z)
    (regex_i : string -> option (string -> bool))
    (session : option Session) (requestBody : option TaskInput) (db : DB) :
  let result := POST parseDate regex_i session requestBody db in
  let code := status_code (fst result) in
  (code = 201 \/ code = 400 \/ code = 401 \/ code = 500)
  /\ (code = 401 <-> sessionUserId session = None)
  /\ (code = 500 <-> sessionUserId session <> None /\ requestBody = None)
  /\ (code = 400 <->
      exists input,
        sessionUserId session <> None /\ requestBody = Some input
        /\ taskSchema_issues parseDate input <> []
        /\ body (fst result)
           = ValidationBody "Validation error"
               (taskSchema_issues parseDate input))
  /\ (code <> 201 -> snd result = db)
  /\ (code = 201 ->
      exists task,
        body (fst result) = TaskBody task
        /\ sessionUserId session = Some (userId task)
        /\ tasks (snd result) = tasks db ++ [task]).
Proof.
  intros result code. unfold code, result.
  destruct (sessionUserId session) as [uid|] eqn:Hs.
  - destruct requestBody as [input|].
    + destruct (taskSchema_parse parseDate input) as [data|e] eqn:Hv.
      * rewrite (POST_valid _ _ _ _ _ _ _ Hs Hv).
        cbn [fst snd status_code body tasks].
        split; [auto|]. split; [split; discriminate|].
        split; [split; [discriminate|intros [_ [=]]]|].
        split.
        { split; [discriminate|]. intros (input' & _ & [= <-] & Hi & _).
          apply taskSchema_parse_Ok in Hv as [Hv _]. contradiction. }
        split; [intros H; now contradiction H|].
        intros _. now exists (created db uid data).
      * destruct (taskSchema_parse_Throw _ _ _ Hv) as [-> Hne].
        rewrite (POST_invalid_body_400 _ _ _ _ _ _ _ Hs Hv).
        cbn [fst snd status_code body].
        split; [auto|]. split; [split; discriminate|].
        split; [split; [discriminate|intros [_ [=]]]|].
        split.
        { split; [|reflexivity]. intros _. exists input.
          repeat split; [discriminate|exact Hne]. }
        split; [reflexivity|discriminate].
    + rewrite (POST_malformed_body _ _ _ _ _ Hs).
      cbn [fst snd status_code internalError body].
      split; [auto|]. split; [split; discriminate|].
      split; [split; [intros _; split; [discriminate|reflexivity]
                     |reflexivity]|].
      split; [split; [discriminate|intros (input & _ & [=] & _)]|].
      split; [reflexivity|discriminate].
  - rewrite (POST_unauthenticated _ _ _ _ _ Hs).
    cbn [fst snd status_code unauthorized body].
    split; [auto|]. split; [split; reflexivity|].
    split; [split; [discriminate|intros [H _]; now contradiction H]|].
    split; [split; [discriminate
                   |intros (input & H & _); now contradiction H]|].
    split; [reflexivity|discriminate].
Qed.

Lemma nextOrder_above col x : In x col -> order x < nextOrder col.
Proof.
  intros Hx. unfold nextOrder.
  destruct (maxByOrder col) as [top|] eqn:E.
  - apply maxByOrder_Some in E as [_ Hmax]. specialize (Hmax x Hx). lia.
  - apply maxByOrder_None in E. subst. contradiction.
Qed.

Lemma nextOrder_snoc col c :
  (forall x, In x col -> order x < order c) ->
  nextOrder (col ++ [c]) = order c + 1.
Proof.
  intros Hc. unfold nextOrder.
  destruct (maxByOrder (col ++ [c])) as [top|] eqn:E.
  - apply maxByOrder_Some in E as [Hin Hmax].
    assert (Hle : order c <= order top).
    { apply Hmax, in_or_app. right. now left. }
    apply in_app_or in Hin as [Hin|[<-|[]]]; [|reflexivity].
    specialize (Hc top Hin). lia.
  - apply maxByOrder_None in E. now destruct col.
Qed.

(** X7: two creations in a row by one user: when both payloads are valid
    and name the same column, the second task gets the order of the first
    plus one, whatever the column held; when they name different columns
    the second gets the order it would have got without the first. *)
Theorem POST_twice_orders
    (parseDate : string -> option Z)
    (regex_i : string -> option (string -> bool))
    (session : option Session) (uid : string)
    (input1 input2 : TaskInput) (data1 data2 : TaskData) (db : DB)
    (Hs : sessionUserId session = Some uid)
    (Hv1 : taskSchema_parse parseDate input1 = Ok data1)
    (Hv2 : taskSchema_parse parseDate input2 = Ok data2) :
  let first := POST parseDate regex_i session (Some input1) db in
  let second := POST parseDate regex_i session (Some input2) (snd first) in
  exists task1 task2,
    fst first = json (TaskBody task1) 201
    /\ fst second = json (TaskBody task2) 201
    /\ tasks (snd second) = tasks db ++ [task1; task2]
    /\ (d_status data1 = d_status data2 -> order task2 = order task1 + 1)
    /\ (d_status data1 <> d_status data2 ->
        order task2 = nextOrder (column uid (d_status data2) (tasks db))).
Proof.
  intros first second. unfold second, first.
  rewrite (POST_valid _ _ _ _ _ _ db Hs Hv1). cbn [snd].
  rewrite (POST_valid _ _ _ _ _ _ _ Hs Hv2). cbn [fst snd tasks].
  eexists. eexists. split; [reflexivity|]. split; [reflexivity|].
  split; [now rewrite <- app_assoc|].
  cbn [created order tasks]. rewrite column_app.
  assert (Hcol : column uid (d_status data2) [created db uid data1]
                 = if Status_eqb (d_status data1) (d_status data2)
                   then [created db uid data1] else []).
  { unfold column, inColumn. cbn [filter created userId status].
    rewrite String.eqb_refl. cbn [andb].
    now destruct (Status_eqb (d_status data1) (d_status data2)). }
  rewrite Hcol. split.
  - intros <-. rewrite Status_eqb_refl.
    rewrite nextOrder_snoc; [reflexivity|].
    intros x Hx. cbn [created order]. now apply nextOrder_above.
  - intros Hne. destruct (Status_eqb (d_status data1) (d_status data2)) eqn:E.
    + apply Status_eqb_eq in E. contradiction.
    + now rewrite app_nil_r.
Qed.

Lemma POST_twice_orders_witness :
  let pd := fun _ : string => @None Z in
  let rx := fun _ : string => @None (string -> bool) in
  let first := POST pd rx (sessionFor "u1") (Some firstTaskInput)
                 (mkDB [sampleTask 0 "u1" "Older" backlog 7] 1 []) in
  let second := POST pd rx (sessionFor "u1") (Some firstTaskInput)
                  (snd first) in
  map order (responseTasks (fst first)) = [8]
  /\ map order (responseTasks (fst second)) = [9].
Proof.
  intros pd rx first second.
  destruct (POST_twice_orders pd rx (sessionFor "u1") "u1"
              firstTaskInput firstTaskInput
              (taskSchema_output pd firstTaskInput)
              (taskSchema_output pd firstTaskInput)
              (mkDB [sampleTask 0 "u1" "Older" backlog 7] 1 [])
              eq_refl eq_refl eq_refl) as (t1 & t2 & H1 & H2 & _).
  split; reflexivity.
Defined.

Lemma GET_depends_on_matching_tasks parseDate regex_i session searchParams
    db db' :
  (forall uid query, sessionUserId session = Some uid ->
     filter (matchesAll regex_i (getFilter uid query)) (tasks db')
     = filter (matchesAll regex_i (getFilter uid query)) (tasks db)) ->
  fst (GET parseDate regex_i session searchParams db')
  = fst (GET parseDate regex_i session searchParams db).
Proof.
  intros H. destruct (sessionUserId session) as [me|] eqn:Hs.
  - rewrite !(GET_authenticated _ _ _ _ _ _ Hs).
    destruct (getTasksQuerySchema_parse _ _) as [query|e]; [|reflexivity].
    destruct (forallb _ _); [|reflexivity].
    cbn [fst]. now rewrite (H me query eq_refl).
  - now rewrite !(GET_unauthenticated _ _ _ _ _ Hs).
Qed.

(** X8: after a successful creation the user's unfiltered list is the
    previous one with the created task added, and every request of any
    other user is answered as before the creation. *)
Theorem POST_then_GET
    (parseDate : string -> option Z)
    (regex_i : string -> option (string -> bool))
    (session : option Session) (uid : string)
    (input : TaskInput) (data : TaskData) (db : DB)
    (Hs : sessionUserId session = Some uid)
    (Hv : taskSchema_parse parseDate input = Ok data) :
  let posted := POST parseDate regex_i session (Some input) db in
  exists task,
    fst posted = json (TaskBody task) 201
    /\ Permutation
         (responseTasks (fst (GET parseDate regex_i session [] (snd posted))))
         (task :: responseTasks (fst (GET parseDate regex_i session [] db)))
    /\ (forall other searchParams,
           sessionUserId other <> Some uid ->
           fst (GET parseDate regex_i other searchParams (snd posted))
           = fst (GET parseDate regex_i other searchParams db)).
Proof.
  intros posted. unfold posted.
  rewrite (POST_valid _ _ _ _ _ _ _ Hs Hv). cbn [fst snd].
  exists (created db uid data). split; [reflexivity|]. split.
  - assert (Hq : getTasksQuerySchema_parse parseDate (rawQueryOf [])
                 = Ok (mkQuery None None None None)) by reflexivity.
    assert (Hacc : forall q,
               orUndefined (q_q (mkQuery None None None None)) = Some q ->
               regex_i q <> None) by (intros q [=]).
    rewrite !(GET_accepted _ _ _ _ _ _ _ Hs Hq Hacc).
    unfold responseTasks. cbn [body tasks].
    eapply perm_trans; [apply sortBy_Permutation|].
    eapply perm_trans; [|apply perm_skip, Permutation_sym, sortBy_Permutation].
    rewrite filter_app. cbn [filter].
    replace (matchesAll regex_i (getFilter uid (mkQuery None None None None))
               (created db uid data)) with true.
    + apply Permutation_sym, Permutation_cons_append.
    + symmetry. unfold matchesAll. simpl. now rewrite String.eqb_refl.
  - intros other searchParams Hne.
    apply GET_depends_on_matching_tasks. intros me query Hme.
    cbn [tasks]. rewrite filter_app. cbn [filter].
    replace (matchesAll regex_i (getFilter me query) (created db uid data))
      with false; [apply app_nil_r|].
    symmetry. destruct (matchesAll _ _ _) eqn:E; [|reflexivity].
    apply getFilter_userId in E. cbn [created userId] in E. congruence.
Qed.

Lemma POST_then_GET_witness :
  let pd := fun _ : string => @None Z in
  let rx := fun _ : string => @None (string -> bool) in
  let posted := POST pd rx (sessionFor "u2") (Some firstTaskInput)
                  twoUsersDB in
  map _id (responseTasks (fst (GET pd rx (sessionFor "u2") [] (snd posted))))
  = [1; 2]
  /\ fst (GET pd rx (sessionFor "u1") [] (snd posted))
     = fst (GET pd rx (sessionFor "u1") [] twoUsersDB).
Proof.
  intros pd rx posted.
  destruct (POST_then_GET pd rx (sessionFor "u2") "u2" firstTaskInput
              (taskSchema_output pd firstTaskInput) twoUsersDB
              eq_refl eq_refl) as (t & _ & _ & H).
  split; [reflexivity|].
  apply H. discriminate.
Defined.

(** * Further properties of the task dialog *)

Lemma progressShape_upTo_100 : tableUpTo progressShape 100 = true.
Proof. vm_compute. reflexivity. Qed.

Lemma progressShape_at c n :
  (1 <= n <= 100)%nat -> (c <= n)%nat -> progressShape c n = true.
Proof. apply tableUpTo_spec, progressShape_upTo_100. Qed.

Lemma progressZ_defined c n :
  (1 <= n <= 100)%nat -> (c <= n)%nat ->
  exists r, progressZ c n = Some r /\ 0 <= r <= 100
            /\ (r = 100 <-> c = n) /\ (r = 0 <-> c = O).
Proof.
  intros Hn Hc. pose proof (progressShape_at c n Hn Hc) as H.
  unfold progressShape in H.
  destruct (progressZ c n) as [r|]; [|discriminate].
  exists r. split; [reflexivity|].
  apply andb_true_iff in H as [H _].
  apply andb_true_iff in H as [H H0].
  apply andb_true_iff in H as [H H100].
  apply andb_true_iff in H as [Hlo Hhi].
  apply Z.leb_le in Hlo, Hhi. apply Bool.eqb_prop in H0, H100.
  split; [lia|]. split.
  - rewrite <- Z.eqb_eq, H100. apply Nat.eqb_eq.
  - rewrite <- Z.eqb_eq, H0. apply Nat.eqb_eq.
Qed.

Lemma progressZ_monotone n c c' :
  (1 <= n <= 100)%nat -> (c <= c')%nat -> (c' <= n)%nat ->
  exists r r', progressZ c n = Some r /\ progressZ c' n = Some r' /\ r <= r'.
Proof.
  intros Hn Hcc Hc'. induction Hcc as [|c' Hcc IH].
  - destruct (progressZ_defined c n Hn Hc') as (r & Hr & _).
    exists r, r. repeat split; try assumption. lia.
  - destruct IH as (r & r1 & Hr & Hr1 & Hle); [lia|].
    pose proof (progressShape_at c' n Hn ltac:(lia)) as H.
    unfold progressShape in H. rewrite Hr1 in H.
    apply andb_true_iff in H as [_ H].
    replace (c' =? n)%nat with false in H
      by (symmetry; apply Nat.eqb_neq; lia).
    cbn [orb] in H.
    destruct (progressZ (S c') n) as [r2|]; [|discriminate].
    apply Z.leb_le in H. exists r, r2. repeat split; try assumption. lia.
Qed.

Lemma checklistProgress_progressZ items watchedPercent :
  (0 < List.length items)%nat ->
  JS.to_Z (checklistProgress items watchedPercent)
  = progressZ (List.length (filter checked items)) (List.length items).
Proof.
  intros Hn. unfold checklistProgress, hasChecklist, itemCount.
  replace (0 <? Z.of_nat (List.length items)) with true
    by (symmetry; apply Z.ltb_lt; lia).
  reflexivity.
Qed.

Lemma filter_length_all {A} (f : A -> bool) l :
  List.length (filter f l) = List.length l <-> forallb f l = true.
Proof.
  induction l as [|x l IH]; simpl; [tauto|].
  pose proof (filter_length_le f l).
  destruct (f x); simpl.
  - rewrite <- IH. lia.
  - split; [lia|discriminate].
Qed.

Lemma filter_length_none {A} (f : A -> bool) l :
  List.length (filter f l) = O <-> forallb (fun x => negb (f x)) l = true.
Proof.
  induction l as [|x l IH]; simpl; [tauto|].
  destruct (f x); simpl; [split; discriminate|exact IH].
Qed.

(** X9: for a checklist of 1 to 100 items the progress the dialog shows
    is an integer from 0 to 100, whatever the percent field holds; it is
    100 exactly when every item is checked and 0 exactly when none is. *)
Theorem checklist_progress_range (items : list ChecklistItem)
    (watchedPercent : option JS.number)
    (Hn : (0 < List.length items <= 100)%nat) :
  exists r,
    JS.to_Z (checklistProgress items watchedPercent) = Some r
    /\ 0 <= r <= 100
    /\ (r = 100 <-> forallb checked items = true)
    /\ (r = 0 <-> forallb (fun item => negb (checked item)) items = true).
Proof.
  rewrite checklistProgress_progressZ by lia.
  destruct (progressZ_defined (List.length (filter checked items))
              (List.length items)) as (r & Hr & Hb & H100 & H0);
    [lia|apply filter_length_le|].
  exists r. split; [exact Hr|]. split; [exact Hb|].
  now rewrite H100, H0, filter_length_all, filter_length_none.
Qed.

Lemma checklist_progress_range_witness :
  exists r,
    JS.to_Z (checklistProgress (checklistOf 2 7) None) = Some r
    /\ 0 <= r <= 100.
Proof.
  assert (Hn : (0 < List.length (checklistOf 2 7) <= 100)%nat)
    by (simpl; lia).
  destruct (checklist_progress_range (checklistOf 2 7) None Hn)
    as (r & Hr & Hb & _).
  exists r. split; [exact Hr|exact Hb].
Defined.

Lemma updateChecklistItem_length id updates items :
  List.length (updateChecklistItem id updates items) = List.length items.
Proof. apply length_map. Qed.

Lemma setChecked_true_count id items :
  (List.length (filter checked items)
   <= List.length (filter checked
                     (updateChecklistItem id (setChecked true) items)))%nat.
Proof.
  induction items as [|x l IH]; simpl; [lia|].
  destruct (String.eqb (item_id x) id); simpl.
  - destruct (checked x); simpl; lia.
  - destruct (checked x); simpl; lia.
Qed.

Lemma setChecked_false_count id items :
  (List.length (filter checked
                  (updateChecklistItem id (setChecked false) items))
   <= List.length (filter checked items))%nat.
Proof.
  induction items as [|x l IH]; simpl; [lia|].
  destruct (String.eqb (item_id x) id); simpl.
  - destruct (checked x); simpl; lia.
  - destruct (checked x); simpl; lia.
Qed.

(** X10: in a checklist of 1 to 100 items, ticking the checkbox of an
    item never lowers the progress shown and clearing it never raises
    it. *)
Theorem checking_an_item_is_monotone (items : list ChecklistItem)
    (id : string) (watchedPercent : option JS.number)
    (Hn : (0 < List.length items <= 100)%nat) :
  exists before ticked cleared,
    JS.to_Z (checklistProgress items watchedPercent) = Some before
    /\ JS.to_Z (checklistProgress
                  (updateChecklistItem id (setChecked true) items)
                  watchedPercent) = Some ticked
    /\ JS.to_Z (checklistProgress
                  (updateChecklistItem id (setChecked false) items)
                  watchedPercent) = Some cleared
    /\ cleared <= before <= ticked.
Proof.
  rewrite !checklistProgress_progressZ
    by (rewrite ?updateChecklistItem_length; lia).
  rewrite !updateChecklistItem_length.
  destruct (progressZ_monotone (List.length items)
              (List.length (filter checked items))
              (List.length (filter checked
                 (updateChecklistItem id (setChecked true) items))))
    as (r & r1 & Hr & Hr1 & Hle);
    [lia|apply setChecked_true_count| |].
  { pose proof (filter_length_le checked
                  (updateChecklistItem id (setChecked true) items)) as H.
    now rewrite updateChecklistItem_length in H. }
  destruct (progressZ_monotone (List.length items)
              (List.length (filter checked
                 (updateChecklistItem id (setChecked false) items)))
              (List.length (filter checked items)))
    as (r0 & r' & Hr0 & Hr' & Hle');
    [lia|apply setChecked_false_count|apply filter_length_le|].
  exists r, r1, r0. rewrite Hr in Hr'. injection Hr' as <-.
  repeat split; try assumption.
Qed.

Lemma checking_an_item_is_monotone_witness :
  let items := [mkItem "a" "one" false; mkItem "b" "two" true;
                mkItem "c" "three" false] in
  JS.to_Z (checklistProgress items None) = Some 33
  /\ JS.to_Z (checklistProgress
                (updateChecklistItem "a" (setChecked true) items) None)
     = Some 67.
Proof.
  intros items.
  assert (Hn : (0 < List.length items <= 100)%nat) by (simpl; lia).
  destruct (checking_an_item_is_monotone items "a" None Hn)
    as (b & t & c & _).
  split; vm_compute; reflexivity.
Defined.

Lemma removeChecklistItem_fresh id items :
  ~ In id (map item_id items) -> removeChecklistItem id items = items.
Proof.
  induction items as [|x l IH]; simpl; intros H; [reflexivity|].
  destruct (String.eqb (item_id x) id) eqn:E.
  - apply String.eqb_eq in E. exfalso. apply H. now left.
  - simpl. rewrite IH; [reflexivity|]. intros Hin. apply H. now right.
Qed.

Lemma updateChecklistItem_fresh id updates items :
  ~ In id (map item_id items) -> updateChecklistItem id updates items = items.
Proof.
  induction items as [|x l IH]; simpl; intros H; [reflexivity|].
  destruct (String.eqb (item_id x) id) eqn:E.
  - apply String.eqb_eq in E. exfalso. apply H. now left.
  - rewrite IH; [reflexivity|]. intros Hin. apply H. now right.
Qed.

(** X11: an added item is unchecked with an empty label, and removing it
    by its id gives the checklist back when no other item has that id.
    Two items added at the same millisecond share their id: removing one
    removes both, and ticking one ticks both. *)
Theorem checklist_add_then_remove (now : string)
    (items : list ChecklistItem)
    (Hfresh : ~ In now (map item_id items)) :
  removeChecklistItem now (addChecklistItem now items) = items
  /\ removeChecklistItem now (addChecklistItem now (addChecklistItem now items))
     = items
  /\ updateChecklistItem now (setChecked true)
       (addChecklistItem now (addChecklistItem now items))
     = items ++ [mkItem now "" true; mkItem now "" true]
  /\ checkedCount (addChecklistItem now items) = checkedCount items
  /\ itemCount (addChecklistItem now items) = itemCount items + 1.
Proof.
  unfold addChecklistItem, removeChecklistItem, updateChecklistItem,
    checkedCount, itemCount.
  rewrite <- !app_assoc, !filter_app, !map_app, !length_app.
  fold (removeChecklistItem now items).
  fold (updateChecklistItem now (setChecked true) items).
  rewrite (removeChecklistItem_fresh _ _ Hfresh),
    (updateChecklistItem_fresh _ _ _ Hfresh).
  cbn [filter map app item_id checked List.length].
  rewrite String.eqb_refl. cbn [negb app List.length].
  rewrite !app_nil_r. repeat split; lia.
Qed.

Lemma checklist_add_then_remove_witness :
  removeChecklistItem "1700000000001"
    (addChecklistItem "1700000000001" [mkItem "1700000000000" "one" true])
  = [mkItem "1700000000000" "one" true].
Proof.
  apply (checklist_add_then_remove "1700000000001"
           [mkItem "1700000000000" "one" true]).
  simpl. intros [H|[]]. discriminate H.
Defined.

(** *** Tags *)

Lemma trimStart_blank s :
  forallb isWhiteSpace (list_ascii_of_string s) = true ->
  trimStart s = "".
Proof.
  induction s as [|c s IH]; simpl; [reflexivity|].
  intros H. apply andb_true_iff in H as [Hc Hs]. rewrite Hc. now apply IH.
Qed.

Lemma includesTag_In tags tag : includesTag tags tag = true <-> In tag tags.
Proof.
  unfold includesTag. rewrite existsb_exists. split.
  - intros (x & Hx & E). apply String.eqb_eq in E. now subst.
  - intros H. exists tag. split; [exact H|apply String.eqb_refl].
Qed.

(** What [addTag] does, by cases. *)
Lemma addTag_cases st :
  (nonEmpty (trim (tagInput st)) = true
   /\ ~ In (trim (tagInput st)) (watchedTags st)
   /\ addTag st = mkTagState "" (watchedTags st ++ [trim (tagInput st)]))
  \/ ((trim (tagInput st) = "" \/ In (trim (tagInput st)) (watchedTags st))
      /\ addTag st = st).
Proof.
  unfold addTag.
  destruct (nonEmpty (trim (tagInput st))) eqn:Hne; simpl.
  - destruct (includesTag (watchedTags st) (trim (tagInput st))) eqn:Hin;
      simpl.
    + right. split; [right; now apply includesTag_In|reflexivity].
    + left. split; [reflexivity|]. split; [|reflexivity].
      intros H. apply includesTag_In in H. congruence.
  - right. split; [left|reflexivity].
    unfold nonEmpty in Hne. apply negb_false_iff in Hne.
    now apply String.eqb_eq.
Qed.

(** X12: [addTag] keeps the tag list free of duplicates and of the empty
    tag; it either changes nothing or appends the trimmed input and
    clears the input; an input of white space only changes nothing, and
    entering an accepted tag a second time changes nothing more. *)
Theorem addTag_keeps_tags_distinct (st : TagState)
    (Hdistinct : NoDup (watchedTags st))
    (Hnonempty : ~ In "" (watchedTags st)) :
  NoDup (watchedTags (addTag st))
  /\ ~ In "" (watchedTags (addTag st))
  /\ (addTag st = st
      \/ addTag st = mkTagState "" (watchedTags st ++ [trim (tagInput st)]))
  /\ (forallb isWhiteSpace (list_ascii_of_string (tagInput st)) = true ->
      addTag st = st)
  /\ watchedTags
       (addTag (mkTagState (tagInput st) (watchedTags (addTag st))))
     = watchedTags (addTag st).
Proof.
  destruct (addTag_cases st) as [(Hne & Hnew & ->)|([Hblank|Hdup] & ->)].
  - cbn [watchedTags].
    assert (Hx : trim (tagInput st) <> "").
    { intros E. rewrite E in Hne. discriminate. }
    split.
    { apply NoDup_app; [exact Hdistinct|repeat constructor; auto|].
      intros x Hx1 [<-|[]]. contradiction. }
    split; [intros H; apply in_app_or in H as [H|[H|[]]]; auto|].
    split; [now right|]. split.
    + intros Hws. apply trimStart_blank in Hws.
      unfold trim in Hx. rewrite Hws in Hx. now contradiction Hx.
    + destruct (addTag_cases
                  (mkTagState (tagInput st)
                     (watchedTags st ++ [trim (tagInput st)])))
        as [(_ & Hnot & _)|(_ & ->)]; [|reflexivity].
      exfalso. apply Hnot. cbn [tagInput watchedTags].
      apply in_or_app. right. now left.
  - repeat split; auto.
    destruct st as [input tags]. cbn [tagInput watchedTags] in *.
    destruct (addTag_cases (mkTagState input tags))
      as [(Hne & _)|(_ & ->)]; [|reflexivity].
    cbn [tagInput] in Hne. rewrite Hblank in Hne. discriminate.
  - repeat split; auto.
    destruct st as [input tags]. cbn [tagInput watchedTags] in *.
    destruct (addTag_cases (mkTagState input tags))
      as [(_ & Hnot & _)|(_ & ->)]; [|reflexivity].
    contradiction.
Qed.

Lemma addTag_keeps_tags_distinct_witness :
  addTag (mkTagState "  urgent " ["home"])
  = mkTagState "" ["home"; "urgent"]
  /\ NoDup (watchedTags (addTag (mkTagState "  urgent " ["home"]))).
Proof.
  split; [reflexivity|].
  apply (addTag_keeps_tags_distinct (mkTagState "  urgent " ["home"])).
  - repeat constructor. simpl. tauto.
  - simpl. intros [H|[]]. discriminate H.
Defined.

(** X13: [removeTag] removes every occurrence of the tag and nothing
    else; removing a tag that [addTag] has just appended gives the
    previous tags back. *)
Theorem removeTag_undoes_addTag (st : TagState)
    (Hnew : ~ In (trim (tagInput st)) (watchedTags st)) :
  watchedTags (removeTag (trim (tagInput st)) (addTag st)) = watchedTags st
  /\ (forall tag st', ~ In tag (watchedTags (removeTag tag st')))
  /\ (forall tag other st',
         other <> tag ->
         (In other (watchedTags (removeTag tag st'))
          <-> In other (watchedTags st'))).
Proof.
  assert (Hkeep : forall tag l, ~ In tag l ->
             filter (fun x => negb (String.eqb x tag)) l = l).
  { intros tag l. induction l as [|x l IH]; simpl; intros H; [reflexivity|].
    destruct (String.eqb x tag) eqn:E.
    - apply String.eqb_eq in E. exfalso. apply H. now left.
    - simpl. rewrite IH; [reflexivity|]. intros Hin. apply H. now right. }
  split; [|split].
  - destruct (addTag_cases st) as [(_ & _ & ->)|(_ & ->)];
      unfold removeTag; cbn [watchedTags].
    + rewrite filter_app, (Hkeep _ _ Hnew). cbn [filter].
      rewrite String.eqb_refl. apply app_nil_r.
    + now apply Hkeep.
  - intros tag st' H. unfold removeTag in H. cbn [watchedTags] in H.
    apply filter_In in H as [_ H]. now rewrite String.eqb_refl in H.
  - intros tag other st' Hne. unfold removeTag. cbn [watchedTags].
    rewrite filter_In. split; [tauto|]. intros H. split; [exact H|].
    apply negb_true_iff, String.eqb_neq. exact Hne.
Qed.

Lemma removeTag_undoes_addTag_witness :
  watchedTags (removeTag "urgent" (addTag (mkTagState "  urgent " ["home"])))
  = ["home"].
Proof.
  apply (removeTag_undoes_addTag (mkTagState "  urgent " ["home"])).
  simpl. intros [H|[]]. discriminate H.
Defined.

(** * Further properties of the all-tasks view *)

Lemma statusName_inj a b : statusName a = statusName b -> a = b.
Proof. destruct a, b; simpl; intros H; try reflexivity; discriminate H. Qed.

Lemma filterTasks_In (ts : list Task)
    (searchQuery statusFilter priorityFilter : string) (t : Task) :
  In t (filterTasks ts searchQuery statusFilter priorityFilter) <->
  In t ts
  /\ (searchQuery = ""
      \/ (exists pre post,
             toLowerCase (title t)
             = (pre ++ toLowerCase searchQuery ++ post)%string)
      \/ (exists d pre post,
             description t = Some d
             /\ toLowerCase d
                = (pre ++ toLowerCase searchQuery ++ post)%string))
  /\ (statusFilter = "all" \/ statusName (status t) = statusFilter)
  /\ (priorityFilter = "all" \/ priorityName (priority t) = priorityFilter).
Proof.
  unfold filterTasks.
  assert (Hsearch :
    In t (if nonEmpty searchQuery
          then filter (searchMatches searchQuery) ts else ts)
    <-> In t ts
        /\ (searchQuery = ""
            \/ (exists pre post,
                   toLowerCase (title t)
                   = (pre ++ toLowerCase searchQuery ++ post)%string)
            \/ (exists d pre post,
                   description t = Some d
                   /\ toLowerCase d
                      = (pre ++ toLowerCase searchQuery ++ post)%string))).
  { unfold nonEmpty. destruct (String.eqb searchQuery "") eqn:E; simpl.
    - apply String.eqb_eq in E. tauto.
    - apply String.eqb_neq in E.
      rewrite filter_In, searchMatches_spec, includes_spec. split.
      + intros [Hin [H|(d & Hd & H)]]; split; auto.
        right. right. apply includes_spec in H as (pre & post & H).
        now exists d, pre, post.
      + intros [Hin [H|[H|(d & pre & post & Hd & H)]]];
          [contradiction|tauto|].
        split; [exact Hin|]. right. exists d. split; [exact Hd|].
        apply includes_spec. now exists pre, post. }
  set (l1 := if nonEmpty searchQuery
             then filter (searchMatches searchQuery) ts else ts) in *.
  assert (Hstatus :
    In t (if negb (String.eqb statusFilter "all")
          then filter (fun t => String.eqb (statusName (status t))
                                  statusFilter) l1
          else l1)
    <-> In t l1
        /\ (statusFilter = "all" \/ statusName (status t) = statusFilter)).
  { destruct (String.eqb statusFilter "all") eqn:E; simpl.
    - apply String.eqb_eq in E. tauto.
    - apply String.eqb_neq in E. rewrite filter_In, String.eqb_eq. tauto. }
  set (l2 := if negb (String.eqb statusFilter "all")
             then filter (fun t => String.eqb (statusName (status t))
                                     statusFilter) l1
             else l1) in *.
  destruct (String.eqb priorityFilter "all") eqn:E; simpl.
  + apply String.eqb_eq in E. rewrite Hstatus, Hsearch. tauto.
  + apply String.eqb_neq in E.
    rewrite filter_In, String.eqb_eq, Hstatus, Hsearch. tauto.
Qed.

Lemma filterTasks_as_filter (ts : list Task)
    (searchQuery statusFilter priorityFilter : string) :
  exists keep,
    filterTasks ts searchQuery statusFilter priorityFilter = filter keep ts.
Proof.
  unfold filterTasks.
  exists (fun t =>
            (if nonEmpty searchQuery then searchMatches searchQuery t
             else true)
            && (if negb (String.eqb statusFilter "all")
                then String.eqb (statusName (status t)) statusFilter
                else true)
            && (if negb (String.eqb priorityFilter "all")
                then String.eqb (priorityName (priority t)) priorityFilter
                else true)).
  assert (Hff : forall (f g : Task -> bool) l,
             filter g (filter f l) = filter (fun x => f x && g x) l).
  { intros f g l. induction l as [|x l IH]; simpl; [reflexivity|].
    destruct (f x); simpl; [destruct (g x)|]; now rewrite IH. }
  assert (Hif : forall (b : bool) (f : Task -> bool) l,
             (if b then filter f l else l)
             = filter (fun x => if b then f x else true) l).
  { intros b f l. destruct b; [reflexivity|].
    induction l as [|x l IH]; simpl; [reflexivity|]. now rewrite <- IH. }
  rewrite !Hif, !Hff. apply filter_ext. intros x. apply andb_assoc.
Qed.

(** X14: the three filters of the all-tasks view combine as a
    conjunction and keep the tasks in their order: a task is shown
    exactly when it is in the list, the search text is empty or occurs,
    case ignored, as a contiguous part of its title or description, and
    each of the status and priority selectors is [all] or names the
    task's value.  With no search text and both selectors on [all] the
    whole list is shown. *)
Theorem filterTasks_spec (ts : list Task)
    (searchQuery statusFilter priorityFilter : string) (t : Task) :
  (In t (filterTasks ts searchQuery statusFilter priorityFilter) <->
   In t ts
   /\ (searchQuery = ""
       \/ (exists pre post,
              toLowerCase (title t)
              = (pre ++ toLowerCase searchQuery ++ post)%string)
       \/ (exists d pre post,
              description t = Some d
              /\ toLowerCase d
                 = (pre ++ toLowerCase searchQuery ++ post)%string))
   /\ (statusFilter = "all" \/ statusName (status t) = statusFilter)
   /\ (priorityFilter = "all" \/ priorityName (priority t) = priorityFilter))
  /\ filterTasks ts "" "all" "all" = ts
  /\ exists keep,
       filterTasks ts searchQuery statusFilter priorityFilter
       = filter keep ts.
Proof.
  split; [apply filterTasks_In|].
  split; [reflexivity|apply filterTasks_as_filter].
Qed.

(** The search folds the capital letters of the Latin-1 supplement as it
    folds [A]-[Z]: a task titled with a capital E acute (201) followed by
    [COLE] is shown for the search text spelt in small letters (233,
    [cole]). *)
Example filterTasks_folds_latin1 :
  let task := sampleTask 0 "u1" (String (ascii_of_nat 201) "COLE") backlog 0 in
  toLowerCase (title task) = String (ascii_of_nat 233) "cole"
  /\ filterTasks [task] (String (ascii_of_nat 233) "cole") "all" "all"
     = [task]
  /\ toLowerCase (String (ascii_of_nat 215) "") = String (ascii_of_nat 215) "".
Proof. repeat split. Qed.

(** X15: a newly saved task is appended to the list, and deleting a task
    removes every entry of its id and keeps the others in their order;
    deleting the task just appended gives the list back when its id was
    not in use, and deleting an id that is not in the list changes
    nothing. *)
Theorem save_then_delete (savedTask : Task) (prevTasks : list Task)
    (Hfresh : ~ In (_id savedTask) (map _id prevTasks)) :
  handleTaskSave_update None savedTask prevTasks = prevTasks ++ [savedTask]
  /\ handleTaskDelete_update (_id savedTask)
       (handleTaskSave_update None savedTask prevTasks) = prevTasks
  /\ handleTaskDelete_update (_id savedTask) prevTasks = prevTasks
  /\ (forall id l t, In t (handleTaskDelete_update id l)
                     <-> In t l /\ _id t <> id)
  /\ (forall id before t after,
         _id t = id ->
         ~ In id (map _id before) -> ~ In id (map _id after) ->
         handleTaskDelete_update id (before ++ t :: after) = before ++ after)
  /\ (forall id l1 l2,
         handleTaskDelete_update id (l1 ++ l2)
         = handleTaskDelete_update id l1 ++ handleTaskDelete_update id l2).
Proof.
  assert (Hkeep : forall l id, ~ In id (map _id l) ->
             handleTaskDelete_update id l = l).
  { intros l id. unfold handleTaskDelete_update.
    induction l as [|x l IH]; simpl; intros H; [reflexivity|].
    destruct (_id x =? id) eqn:E.
    - apply Z.eqb_eq in E. exfalso. apply H. now left.
    - simpl. rewrite IH; [reflexivity|]. intros Hin. apply H. now right. }
  assert (Happ : forall id l1 l2,
             handleTaskDelete_update id (l1 ++ l2)
             = handleTaskDelete_update id l1 ++ handleTaskDelete_update id l2).
  { intros id l1 l2. unfold handleTaskDelete_update. apply filter_app. }
  split; [reflexivity|]. split; [|split; [|split; [|split]]].
  - unfold handleTaskSave_update. rewrite Happ, (Hkeep _ _ Hfresh).
    unfold handleTaskDelete_update. cbn [filter].
    rewrite Z.eqb_refl. apply app_nil_r.
  - now apply Hkeep.
  - intros id l t. unfold handleTaskDelete_update.
    rewrite filter_In, negb_true_iff, Z.eqb_neq. tauto.
  - intros id before t after Ht Hb Ha.
    rewrite Happ, (Hkeep _ _ Hb). f_equal.
    change (t :: after) with ([t] ++ after).
    rewrite Happ, (Hkeep _ _ Ha). unfold handleTaskDelete_update.
    cbn [filter]. apply Z.eqb_eq in Ht. now rewrite Ht.
  - exact Happ.
Qed.

Lemma save_then_delete_witness :
  let third := sampleTask 2 "u1" "Third task" backlog 2 in
  handleTaskSave_update None third twoTasks
  = [sampleTask 0 "u1" "First task" backlog 0;
     sampleTask 1 "u1" "Second task" backlog 1; third]
  /\ handleTaskDelete_update 2 (handleTaskSave_update None third twoTasks)
     = twoTasks
  /\ handleTaskDelete_update 0 (handleTaskSave_update None third twoTasks)
     = [sampleTask 1 "u1" "Second task" backlog 1; third].
Proof.
  intros third.
  destruct (save_then_delete third twoTasks) as (H1 & H2 & _ & _ & H5 & _).
  { simpl. intros [H|[H|[]]]; discriminate H. }
  split; [exact H1|]. split; [exact H2|].
  rewrite H1.
  apply (H5 0 [] (sampleTask 0 "u1" "First task" backlog 0)
           [sampleTask 1 "u1" "Second task" backlog 1; third] eq_refl).
  - intros [].
  - simpl. intros [H|[H|[]]]; discriminate H.
Defined.

(** X16: saving an edited task replaces every entry of its id by the
    saved task and leaves the other entries, the length of the list and
    the sequence of ids as they were; when no entry has the saved task's
    id the list is unchanged, so that the edit does not show. *)
Theorem save_edited_task (editingTask savedTask : Task)
    (prevTasks : list Task) :
  let saved := handleTaskSave_update (Some editingTask) savedTask prevTasks in
  List.length saved = List.length prevTasks
  /\ map _id saved = map _id prevTasks
  /\ (forall t, In t saved <->
                (t = savedTask /\ In (_id savedTask) (map _id prevTasks))
                \/ (In t prevTasks /\ _id t <> _id savedTask))
  /\ (~ In (_id savedTask) (map _id prevTasks) -> saved = prevTasks).
Proof.
  intros saved. unfold saved, handleTaskSave_update.
  split; [apply length_map|]. split.
  { rewrite map_map. apply map_ext. intros t.
    destruct (_id t =? _id savedTask) eqn:E; [|reflexivity].
    apply Z.eqb_eq in E. now rewrite E. }
  split.
  { intros t. rewrite in_map_iff. split.
    - intros (x & Hx & Hin).
      destruct (_id x =? _id savedTask) eqn:E.
      + left. split; [now symmetry|].
        apply Z.eqb_eq in E. rewrite <- E. now apply in_map.
      + right. subst t. split; [exact Hin|]. now apply Z.eqb_neq.
    - intros [[-> H]|[Hin Hne]].
      + apply in_map_iff in H as (x & Hx & Hin).
        exists x. split; [|exact Hin]. now rewrite Hx, Z.eqb_refl.
      + exists t. split; [|exact Hin].
        apply Z.eqb_neq in Hne. now rewrite Hne. }
  intros H. rewrite <- (map_id prevTasks) at 2.
  apply map_ext_in. intros t Ht.
  destruct (_id t =? _id savedTask) eqn:E; [|reflexivity].
  apply Z.eqb_eq in E. exfalso. apply H. rewrite <- E. now apply in_map.
Qed.

(** X17: a status change in the list touches nothing but the status of
    the entries of the given id: the list keeps its length, its order and
    every other field; the changed entries then pass the status filter of
    the new status; applying the change twice is applying it once. *)
Theorem status_change_in_view (taskId : Z) (newStatus : Status)
    (prevTasks : list Task) :
  let changed := handleStatusChange_update taskId newStatus prevTasks in
  map (fun t => setStatus t backlog) changed
  = map (fun t => setStatus t backlog) prevTasks
  /\ (forall t, In t changed -> _id t = taskId -> status t = newStatus)
  /\ (forall t, _id t <> taskId -> (In t changed <-> In t prevTasks))
  /\ (forall t, In t prevTasks -> _id t = taskId ->
        In (setStatus t newStatus)
           (filterTasks changed "" (statusName newStatus) "all"))
  /\ handleStatusChange_update taskId newStatus changed = changed.
Proof.
  intros changed. unfold changed, handleStatusChange_update.
  split; [|split; [|split; [|split]]].
  - rewrite map_map. apply map_ext. intros t.
    now destruct (_id t =? taskId).
  - intros t Ht Hid. apply in_map_iff in Ht as (x & Hx & _).
    destruct (_id x =? taskId) eqn:E; [now subst t|].
    subst x. apply Z.eqb_neq in E. contradiction.
  - intros t Hne. rewrite in_map_iff. split.
    + intros (x & Hx & Hin). destruct (_id x =? taskId) eqn:E.
      * subst t. apply Z.eqb_eq in E. now contradiction Hne.
      * now subst x.
    + intros Hin. exists t. split; [|exact Hin].
      apply Z.eqb_neq in Hne. now rewrite Hne.
  - intros t Hin Hid.
    apply filterTasks_In.
    split.
    + apply in_map_iff. exists t. split; [|exact Hin].
      apply Z.eqb_eq in Hid. now rewrite Hid.
    + split; [now left|]. split; [now right|now left].
  - rewrite map_map. apply map_ext. intros t.
    destruct (_id t =? taskId) eqn:E; cbn [setStatus _id]; now rewrite E.
Qed.

(** * Further properties of the timeline *)

(** X18: a month cell lists the first three tasks of the day (the first
    two in the second timeline component) and counts the others: listed
    and counted tasks together are exactly the tasks of the day, and the
    "+N more" line appears only for a positive N. *)
Theorem month_cells_account_for_every_task (dayTasks : list Task) :
  (exists hidden,
      dayTasks = fst (monthCell3 dayTasks) ++ hidden
      /\ (List.length (fst (monthCell3 dayTasks)) <= 3)%nat
      /\ snd (monthCell3 dayTasks)
         = match hidden with
           | [] => None
           | _ => Some (List.length hidden)
           end
      /\ (hidden <> [] -> List.length (fst (monthCell3 dayTasks)) = 3%nat))
  /\ (exists hidden,
         dayTasks = fst (monthCell2 dayTasks) ++ hidden
         /\ (List.length (fst (monthCell2 dayTasks)) <= 2)%nat
         /\ snd (monthCell2 dayTasks)
            = match hidden with
              | [] => None
              | _ => Some (List.length hidden)
              end
         /\ (hidden <> [] -> List.length (fst (monthCell2 dayTasks)) = 2%nat)).
Proof.
  assert (G : forall k,
    exists hidden,
      dayTasks = firstn k dayTasks ++ hidden
      /\ (List.length (firstn k dayTasks) <= k)%nat
      /\ (if (k <? List.length dayTasks)%nat
          then Some (List.length dayTasks - k)%nat else None)
         = match hidden with
           | [] => None
           | _ => Some (List.length hidden)
           end
      /\ (hidden <> [] -> List.length (firstn k dayTasks) = k)).
  { intros k. exists (skipn k dayTasks).
    split; [symmetry; apply firstn_skipn|].
    split; [apply firstn_le_length|].
    pose proof (length_skipn k dayTasks) as Hlen.
    pose proof (length_firstn k dayTasks) as Hf.
    destruct (Nat.ltb_spec k (List.length dayTasks)) as [Hlt|Hge].
    - split.
      + destruct (skipn k dayTasks) eqn:E; simpl in *; [lia|].
        f_equal. lia.
      + intros _. lia.
    - split.
      + destruct (skipn k dayTasks) eqn:E; simpl in *; [reflexivity|lia].
      + intros Hne. destruct (skipn k dayTasks); [contradiction|].
        simpl in Hlen. lia. }
  split; [apply (G 3%nat)|apply (G 2%nat)].
Qed.

(** *** Tags of the timeline *)

Lemma In_setAdd x y set : In x (setAdd y set) <-> x = y \/ In x set.
Proof.
  unfold setAdd. destruct (existsb (String.eqb y) set) eqn:E.
  - split; [auto|]. intros [->|H]; [|exact H].
    apply existsb_exists in E as (z & Hz & Ez).
    apply String.eqb_eq in Ez. now subst.
  - rewrite in_app_iff. simpl. intuition auto.
Qed.

Lemma NoDup_setAdd y set : NoDup set -> NoDup (setAdd y set).
Proof.
  intros H. unfold setAdd. destruct (existsb (String.eqb y) set) eqn:E.
  - exact H.
  - apply NoDup_app; [exact H|repeat constructor; auto|].
    intros x Hx [->|[]].
    assert (F : existsb (String.eqb x) set = true).
    { apply existsb_exists. exists x. split; [exact Hx|apply String.eqb_refl]. }
    congruence.
Qed.

Lemma In_addTags x tagList set :
  In x (fold_left (fun s tag => setAdd tag s) tagList set)
  <-> In x tagList \/ In x set.
Proof.
  revert set. induction tagList as [|y l IH]; intros set; simpl; [tauto|].
  rewrite IH, In_setAdd. intuition auto.
Qed.

Lemma NoDup_addTags tagList set :
  NoDup set -> NoDup (fold_left (fun s tag => setAdd tag s) tagList set).
Proof.
  revert set. induction tagList as [|y l IH]; intros set H; simpl;
    [exact H|]. now apply IH, NoDup_setAdd.
Qed.

Lemma In_allTags x ts set :
  In x (fold_left (fun allTags task =>
                     fold_left (fun s tag => setAdd tag s) (tags task) allTags)
                  ts set)
  <-> (exists task, In task ts /\ In x (tags task)) \/ In x set.
Proof.
  revert set. induction ts as [|t l IH]; intros set; simpl.
  - split; [auto|]. intros [(task & [] & _)|H]; exact H.
  - rewrite IH, In_addTags. split.
    + intros [(task & Ht & Hx)|[Hx|Hx]]; auto.
      * left. exists task. auto.
      * left. exists t. auto.
    + intros [(task & [<-|Ht] & Hx)|Hx]; auto.
      left. exists task. auto.
Qed.

Lemma NoDup_allTags ts set :
  NoDup set ->
  NoDup (fold_left (fun allTags task =>
                      fold_left (fun s tag => setAdd tag s) (tags task)
                                allTags)
                   ts set).
Proof.
  revert set. induction ts as [|t l IH]; intros set H; simpl; [exact H|].
  now apply IH, NoDup_addTags.
Qed.

Lemma insertString_Permutation x l : Permutation (insertString x l) (x :: l).
Proof.
  induction l as [|y l IH]; simpl; [apply Permutation_refl|].
  destruct (String.leb x y); [apply Permutation_refl|].
  eapply perm_trans; [apply perm_skip, IH|apply perm_swap].
Qed.

Lemma sortStrings_Permutation l : Permutation (sortStrings l) l.
Proof.
  induction l as [|x l IH]; simpl; [apply perm_nil|].
  eapply perm_trans; [apply insertString_Permutation|now apply perm_skip].
Qed.

Lemma insertString_Sorted x l :
  Sorted (fun a b => String.leb a b = true) l ->
  Sorted (fun a b => String.leb a b = true) (insertString x l).
Proof.
  induction l as [|y l IH]; intros Hs; simpl.
  - repeat constructor.
  - destruct (String.leb x y) eqn:E.
    + constructor; [exact Hs|constructor; exact E].
    + apply Sorted_inv in Hs as [Hs Hhd].
      constructor; [now apply IH|].
      destruct l as [|z l]; simpl.
      * constructor. destruct (String.leb_total x y); congruence.
      * destruct (String.leb x z); constructor.
        -- destruct (String.leb_total x y); congruence.
        -- now apply HdRel_inv in Hhd.
Qed.

Lemma sortStrings_Sorted l :
  Sorted (fun a b => String.leb a b = true) (sortStrings l).
Proof.
  induction l as [|x l IH]; simpl; [constructor|].
  now apply insertString_Sorted.
Qed.

Lemma In_getAllTags tag ts :
  In tag (getAllTags ts) <-> exists task, In task ts /\ In tag (tags task).
Proof.
  unfold getAllTags. split.
  - intros H. apply (Permutation_in _ (sortStrings_Permutation _)) in H.
    apply In_allTags in H as [H|[]]. exact H.
  - intros H.
    apply (Permutation_in _ (Permutation_sym (sortStrings_Permutation _))).
    apply In_allTags. now left.
Qed.

(** X19: [getAllTags] lists exactly the tags that some task carries,
    each once, in ascending order. *)
Theorem getAllTags_spec (ts : list Task) :
  NoDup (getAllTags ts)
  /\ Sorted (fun a b => String.leb a b = true) (getAllTags ts)
  /\ (forall tag, In tag (getAllTags ts)
                  <-> exists task, In task ts /\ In tag (tags task)).
Proof.
  split; [|split].
  - unfold getAllTags.
    eapply Permutation_NoDup;
      [apply Permutation_sym, sortStrings_Permutation|].
    apply NoDup_allTags. constructor.
  - apply sortStrings_Sorted.
  - intros tag. apply In_getAllTags.
Qed.

(** X20: every tag the selector offers, [all] apart, selects at least one
    task, and the tasks it selects are exactly those that carry it, in
    their order; the value [all] selects every task, so that a tag named
    [all] cannot be used to filter. *)
Theorem tag_selector_selects_tagged_tasks (ts : list Task) (tag : string)
    (Hoffered : In tag (getAllTags ts))
    (Hnotall : tag <> "all") :
  getFilteredTasks tag ts <> []
  /\ (forall t, In t (getFilteredTasks tag ts) <-> In t ts /\ In tag (tags t))
  /\ getFilteredTasks tag ts
     = filter (fun t => includesTag (tags t) tag) ts
  /\ getFilteredTasks "all" ts = ts.
Proof.
  assert (E : String.eqb tag "all" = false) by now apply String.eqb_neq.
  assert (Hin : forall t, In t (getFilteredTasks tag ts)
                          <-> In t ts /\ In tag (tags t)).
  { intros t. unfold getFilteredTasks. rewrite E.
    now rewrite filter_In, includesTag_In. }
  split; [|split; [exact Hin|split; [|reflexivity]]].
  - apply In_getAllTags in Hoffered as (task & Ht & Htag).
    intros Hempty. assert (H : In task (getFilteredTasks tag ts))
      by now apply Hin.
    now rewrite Hempty in H.
  - unfold getFilteredTasks. now rewrite E.
Qed.

Lemma tag_selector_selects_tagged_tasks_witness :
  let tagged :=
    mkTask 0 "u1" "Tagged" None backlog med 0 ["home"; "all"] None None []
           (JS.of_Z 0) in
  let ts := [tagged; sampleTask 1 "u1" "Untagged" backlog 1] in
  getAllTags ts = ["all"; "home"]
  /\ getFilteredTasks "home" ts = [tagged]
  /\ getFilteredTasks "all" ts = ts.
Proof.
  intros tagged ts.
  assert (Hoffered : In "home" (getAllTags ts)) by (right; left; reflexivity).
  assert (Hnotall : "home" <> "all") by discriminate.
  destruct (tag_selector_selects_tagged_tasks ts "home" Hoffered Hnotall)
    as (_ & _ & H3 & H4).
  split; [reflexivity|]. split; [rewrite H3; reflexivity|exact H4].
Defined.

Lemma sessionRawId_of_userId session uid :
  sessionUserId session = Some uid -> sessionRawId session = Some uid.
Proof.
  destruct session as [[[[[i|] n]|]]|]; simpl; try discriminate.
  destruct (String.eqb i ""); [discriminate|]. now intros [= ->].
Qed.

(** X21: the personal timeline drops nothing of what [GET] returned to
    the same session: with the selector on [all] its task list is the
    fetched list, and with a tag selected it is the fetched tasks that
    carry the tag. *)
Theorem personal_timeline_shows_fetched_tasks
    (parseDate : string -> option Z)
    (regex_i : string -> option (string -> bool))
    (session : option Session)
    (searchParams : list (string * string)) (db : DB)
    (selectedTag : string) :
  let fetched :=
    responseTasks (fst (GET parseDate regex_i session searchParams db)) in
  allUserTasks session fetched = fetched
  /\ personalTasks session "all" fetched = fetched
  /\ personalTasks session selectedTag fetched
     = getFilteredTasks selectedTag fetched.
Proof.
  intros fetched.
  assert (H : allUserTasks session fetched = fetched).
  { unfold fetched. destruct (sessionUserId session) as [uid|] eqn:Hs.
    - unfold allUserTasks. rewrite (sessionRawId_of_userId _ _ Hs).
      rewrite (GET_authenticated _ _ _ _ _ _ Hs).
      destruct (getTasksQuerySchema_parse _ _) as [query|e]; [|reflexivity].
      destruct (forallb _ _); [|reflexivity].
      unfold responseTasks. cbn [fst body].
      assert (Hall : forall l : list Task,
                 (forall t, In t l -> userId t = uid) ->
                 filter (fun task => String.eqb (userId task) uid) l = l).
      { induction l as [|x l IH]; simpl; intros Hl; [reflexivity|].
        rewrite (Hl x (or_introl eq_refl)), String.eqb_refl.
        f_equal. apply IH. intros t Ht. apply Hl. now right. }
      apply Hall. intros t Ht. apply In_sortBy, filter_In in Ht as [_ Ht].
      now apply getFilter_userId in Ht.
    - now rewrite (GET_unauthenticated _ _ _ _ _ Hs). }
  unfold personalTasks. rewrite H. repeat split.
Qed.

Section DayStartFacts.

Variable startOfDay : Z -> Z.
Hypothesis startOfDay_monotone :
  forall a b, a <= b -> startOfDay a <= startOfDay b.

Lemma same_day_span_hidden task s e day :
  startAt task = Some s -> dueAt task = Some e ->
  startOfDay day = day ->
  startOfDay s = startOfDay e -> startOfDay s < s ->
  dayTasks_pred startOfDay day task = false.
Proof.
  intros Hs He Hday Hsame Hlate. unfold dayTasks_pred. rewrite Hs, He.
  cbn [isSome negb andb].
  destruct (s <=? day) eqn:E1; [|reflexivity].
  destruct (day <=? e) eqn:E2; [|reflexivity].
  apply Z.leb_le in E1, E2.
  pose proof (startOfDay_monotone _ _ E2). lia.
Qed.

End DayStartFacts.

(** X22: a task that has both a start and a due instant is not in the
    cell of a day whose first instant precedes its start; so, the start of
    a day being monotone in the instant, a task that starts after the
    first instant of a day and is due the same day is in no day cell of
    either timeline component, while the same task without its due
    instant is in the cell of its day. *)
Theorem same_day_task_in_no_cell (startOfDay : Z -> Z)
    (task : Task) (s e : Z) (ts : list Task)
    (Hmono : forall a b, a <= b -> startOfDay a <= startOfDay b)
    (Hs : startAt task = Some s) (He : dueAt task = Some e)
    (Hsame : startOfDay s = startOfDay e)
    (Hlate : startOfDay s < s) :
  (forall day, startOfDay day = day ->
     ~ In task (dayTasks startOfDay ts day)
     /\ ~ In task (getTasksForDate startOfDay ts day))
  /\ (forall day other, startAt other = Some s -> dueAt other = None ->
        In other ts -> startOfDay day = startOfDay s ->
        In other (dayTasks startOfDay ts day)
        /\ In other (getTasksForDate startOfDay ts day)).
Proof.
  split.
  - intros day Hday.
    pose proof (same_day_span_hidden startOfDay Hmono task s e day
                  Hs He Hday Hsame Hlate) as H.
    unfold dayTasks, getTasksForDate.
    rewrite !filter_In, getTasksForDate_pred_dayTasks_pred, H.
    split; intros [_ F]; discriminate.
  - intros day other Hos Hod Hin Hday.
    unfold dayTasks, getTasksForDate.
    rewrite !filter_In, getTasksForDate_pred_dayTasks_pred.
    assert (H : dayTasks_pred startOfDay day other = true).
    { unfold dayTasks_pred, isSameDay. rewrite Hos, Hod. cbn.
      apply Z.eqb_eq. now symmetry. }
    auto.
Qed.

Lemma utcStartOfDay_monotone a b :
  a <= b -> utcStartOfDay a <= utcStartOfDay b.
Proof.
  intros H. unfold utcStartOfDay.
  rewrite !Z.mod_eq by discriminate.
  pose proof (Z.div_le_mono a b 86400000 eq_refl H). lia.
Qed.

Lemma same_day_task_in_no_cell_witness :
  let meeting :=
    mkTask 0 "u1" "Meeting" None backlog med 0 [] (Some 32400000)
           (Some 61200000) [] (JS.of_Z 0) in
  ~ In meeting (dayTasks utcStartOfDay [meeting] 0)
  /\ ~ In meeting (getTasksForDate utcStartOfDay [meeting] 0).
Proof.
  intros meeting.
  apply (same_day_task_in_no_cell utcStartOfDay meeting 32400000 61200000
           [meeting] utcStartOfDay_monotone eq_refl eq_refl eq_refl eq_refl).
  reflexivity.
Defined.

(** *** Grouping by user *)

Lemma findGroup_None key groups :
  findGroup key groups = None <-> ~ In key (map g_userId groups).
Proof.
  induction groups as [|g rest IH]; simpl; [tauto|].
  destruct (String.eqb (g_userId g) key) eqn:E.
  - apply String.eqb_eq in E. split; [discriminate|]. intros H.
    exfalso. apply H. now left.
  - apply String.eqb_neq in E. rewrite IH. tauto.
Qed.

Lemma keys_pushTask key task groups :
  map g_userId (pushTask key task groups) = map g_userId groups.
Proof.
  induction groups as [|g rest IH]; simpl; [reflexivity|].
  destruct (String.eqb (g_userId g) key); simpl; [reflexivity|].
  now rewrite IH.
Qed.

Lemma In_pushTask key task groups g' :
  NoDup (map g_userId groups) ->
  In g' (pushTask key task groups) ->
  (exists g, In g groups /\ g_userId g = key
             /\ g' = mkGroup (g_userId g) (g_userName g)
                       (g_tasks g ++ [task]))
  \/ (In g' groups /\ g_userId g' <> key).
Proof.
  induction groups as [|g rest IH]; simpl; intros Hnd Hin; [contradiction|].
  apply NoDup_cons_iff in Hnd as [Hg Hnd].
  destruct (String.eqb (g_userId g) key) eqn:E.
  - apply String.eqb_eq in E. destruct Hin as [<-|Hin].
    + left. exists g. auto.
    + right. split; [now right|]. intros Hk. apply Hg.
      rewrite E, <- Hk. now apply in_map.
  - apply String.eqb_neq in E. destruct Hin as [<-|Hin].
    + right. auto.
    + destruct (IH Hnd Hin) as [(g0 & H0 & Hk & ->)|[H1 H2]].
      * left. exists g0. auto.
      * right. auto.
Qed.

Lemma filter_snoc_other (ts : list Task) task key :
  userId task <> key ->
  filter (fun t => String.eqb (userId t) key) (ts ++ [task])
  = filter (fun t => String.eqb (userId t) key) ts.
Proof.
  intros H. rewrite filter_app. cbn [filter].
  apply String.eqb_neq in H. rewrite H. apply app_nil_r.
Qed.

Lemma filter_snoc_same (ts : list Task) task :
  filter (fun t => String.eqb (userId t) (userId task)) (ts ++ [task])
  = filter (fun t => String.eqb (userId t) (userId task)) ts ++ [task].
Proof. rewrite filter_app. cbn [filter]. now rewrite String.eqb_refl. Qed.

Lemma groupStep_groupsOf userName ts groups task :
  groupsOf userName ts groups ->
  ~ In (userId task) objectPrototypeKeys ->
  exists groups',
    groupStep userName (Some groups) task = Some groups'
    /\ groupsOf userName (ts ++ [task]) groups'.
Proof.
  intros (Hnd & Hg & Hall) Hkey. unfold groupStep.
  destruct (findGroup (userId task) groups) as [g0|] eqn:Hfind.
  - eexists. split; [reflexivity|].
    assert (Hin : In (userId task) (map g_userId groups)).
    { destruct (in_dec string_dec (userId task) (map g_userId groups))
        as [H|H]; [exact H|].
      apply findGroup_None in H. congruence. }
    split; [now rewrite keys_pushTask|]. split.
    + intros g' Hg'. apply (In_pushTask _ _ _ _ Hnd) in Hg'
        as [(g & Hgin & Hk & ->)|[Hgin Hk]].
      * destruct (Hg g Hgin) as (Hn & _ & Ht). cbn [g_userName g_tasks g_userId].
        split; [exact Hn|]. split; [now destruct (g_tasks g)|].
        now rewrite Hk, filter_snoc_same, Ht, Hk.
      * destruct (Hg g' Hgin) as (Hn & Hne & Ht).
        split; [exact Hn|]. split; [exact Hne|].
        rewrite filter_snoc_other; [exact Ht|]. congruence.
    + intros t Ht. rewrite keys_pushTask.
      apply in_app_or in Ht as [Ht|[<-|[]]]; auto.
  - assert (Hnew : ~ In (userId task) (map g_userId groups))
      by now apply findGroup_None.
    replace (existsb (String.eqb (userId task)) objectPrototypeKeys)
      with false.
    2:{ symmetry. destruct (existsb _ _) eqn:E; [|reflexivity].
        apply existsb_exists in E as (k & Hk & Ek).
        apply String.eqb_eq in Ek. subst k. contradiction. }
    eexists. split; [reflexivity|].
    assert (Hnd' : NoDup (map g_userId
                            (groups ++ [mkGroup (userId task) userName []]))).
    { rewrite map_app. apply NoDup_app; [exact Hnd|repeat constructor; auto|].
      intros k Hk [<-|[]]. contradiction. }
    split; [now rewrite keys_pushTask|]. split.
    + intros g' Hg'. apply (In_pushTask _ _ _ _ Hnd') in Hg'
        as [(g & Hgin & Hk & ->)|[Hgin Hk]].
      * apply in_app_or in Hgin as [Hgin|[<-|[]]].
        -- exfalso. apply Hnew. rewrite <- Hk. now apply in_map.
        -- cbn [g_userName g_tasks g_userId app].
           split; [reflexivity|]. split; [discriminate|].
           rewrite filter_snoc_same.
           replace (filter _ ts) with (@nil Task); [reflexivity|].
           symmetry. apply filter_none. intros t Ht.
           apply String.eqb_neq. intros E. apply Hnew.
           rewrite <- E. now apply Hall.
      * apply in_app_or in Hgin as [Hgin|[<-|[]]].
        -- destruct (Hg g' Hgin) as (Hn & Hne & Ht).
           split; [exact Hn|]. split; [exact Hne|].
           rewrite filter_snoc_other; [exact Ht|]. congruence.
        -- now contradiction Hk.
    + intros t Ht. rewrite keys_pushTask, map_app, in_app_iff.
      apply in_app_or in Ht as [Ht|[<-|[]]]; [left; auto|right; now left].
Qed.

Lemma fold_groupStep_groupsOf userName rest ts groups :
  groupsOf userName ts groups ->
  (forall t, In t rest -> ~ In (userId t) objectPrototypeKeys) ->
  exists groups',
    fold_left (groupStep userName) rest (Some groups) = Some groups'
    /\ groupsOf userName (ts ++ rest) groups'.
Proof.
  revert ts groups. induction rest as [|t rest IH]; intros ts groups Hg Hk.
  - exists groups. rewrite app_nil_r. auto.
  - destruct (groupStep_groupsOf userName ts groups t Hg)
      as (groups1 & Hstep & Hg1); [apply Hk; now left|].
    destruct (IH (ts ++ [t]) groups1 Hg1) as (groups' & Hfold & Hg');
      [intros x Hx; apply Hk; now right|].
    exists groups'. cbn [fold_left]. rewrite Hstep.
    split; [exact Hfold|]. now rewrite <- app_assoc in Hg'.
Qed.

Lemma groupsOf_nil userName : groupsOf userName [] [].
Proof.
  split; [constructor|]. split; [intros g []|intros t []].
Qed.

Lemma fold_groupStep_None userName ts :
  fold_left (groupStep userName) ts None = None.
Proof. induction ts as [|t ts IH]; simpl; auto. Qed.

(** X23: grouping tasks by user for the global timeline: when no user id
    names a property every object inherits, the groups have distinct
    keys, each holds the tasks of its user in their order and at least
    one, every task is in the group of its user, and every group bears
    the name of the signed-in user; when some task has such a user id the
    grouping throws. *)
Theorem groupByUser_partitions (userName : string) (ts : list Task) :
  ((forall t, In t ts -> ~ In (userId t) objectPrototypeKeys) ->
   exists groups,
     groupByUser userName ts = Some groups
     /\ NoDup (map g_userId groups)
     /\ (forall g, In g groups ->
           g_userName g = userName
           /\ g_tasks g <> []
           /\ g_tasks g
              = filter (fun t => String.eqb (userId t) (g_userId g)) ts)
     /\ (forall t, In t ts -> In (userId t) (map g_userId groups)))
  /\ ((exists t, In t ts /\ In (userId t) objectPrototypeKeys) ->
      groupByUser userName ts = None).
Proof.
  split.
  - intros Hk.
    destruct (fold_groupStep_groupsOf userName ts [] []
                (groupsOf_nil userName) Hk) as (groups & Hfold & Hg).
    exists groups. split; [exact Hfold|exact Hg].
  - intros (bad & Hin & Hbad).
    assert (G : forall rest done groups,
               groupsOf userName done groups ->
               (forall t, In t done -> ~ In (userId t) objectPrototypeKeys) ->
               In bad rest ->
               fold_left (groupStep userName) rest (Some groups) = None).
    { induction rest as [|t rest IH]; intros done groups Hg Hdone Hrest;
        [contradiction|].
      cbn [fold_left].
      destruct (in_dec string_dec (userId t) objectPrototypeKeys) as [Hp|Hp].
      - assert (Hstep : groupStep userName (Some groups) t = None).
        { unfold groupStep.
          replace (findGroup (userId t) groups) with (@None UserGroup).
          - replace (existsb (String.eqb (userId t)) objectPrototypeKeys)
              with true; [reflexivity|].
            symmetry. apply existsb_exists. exists (userId t).
            split; [exact Hp|apply String.eqb_refl].
          - symmetry. apply findGroup_None. intros Hkey.
            apply in_map_iff in Hkey as (g & Hgk & Hgin).
            destruct Hg as (_ & Hg & _).
            destruct (Hg g Hgin) as (_ & Hne & Ht).
            destruct (g_tasks g) as [|x l] eqn:Eg; [contradiction|].
            assert (Hx : In x (filter (fun t0 => String.eqb (userId t0)
                                                   (g_userId g)) done))
              by (rewrite <- Ht; now left).
            apply filter_In in Hx as [Hx Hxe].
            apply String.eqb_eq in Hxe.
            apply (Hdone x Hx). now rewrite Hxe, Hgk. }
        rewrite Hstep. apply fold_groupStep_None.
      - destruct (groupStep_groupsOf userName done groups t Hg Hp)
          as (groups1 & -> & Hg1).
        apply (IH (done ++ [t])); [exact Hg1| |].
        + intros x Hx. apply in_app_or in Hx as [Hx|[<-|[]]]; auto.
        + destruct Hrest as [<-|Hrest]; [contradiction|exact Hrest]. }
    apply (G ts [] []); [apply groupsOf_nil|intros t []|exact Hin].
Qed.

Lemma groupByUser_partitions_witness :
  (exists groups,
     groupByUser "User" (tasks twoUsersDB) = Some groups
     /\ NoDup (map g_userId groups)
     /\ (forall t, In t (tasks twoUsersDB) ->
           In (userId t) (map g_userId groups)))
  /\ groupByUser "User" [sampleTask 0 "constructor" "Write spec" backlog 0]
     = None.
Proof.
  split.
  - destruct (proj1 (groupByUser_partitions "User" (tasks twoUsersDB)))
      as (groups & Hgroups & Hnd & _ & Hall).
    + intros t Ht Hk. simpl in Ht, Hk.
      repeat (destruct Ht as [<-|Ht]; [simpl in Hk; intuition discriminate|]).
      contradiction.
    + exists groups. auto.
  - apply (proj2 (groupByUser_partitions "User"
                    [sampleTask 0 "constructor" "Write spec" backlog 0])).
    eexists. split; [now left|]. simpl. auto.
Defined.

(** X24: the tasks [GET] returned to a session fall into at most one
    group, that of the session's user, which holds all of them: the
    global timeline of a signed-in user shows no other user. *)
Theorem global_timeline_has_one_user
    (parseDate : string -> option Z)
    (regex_i : string -> option (string -> bool))
    (session : option Session) (uid : string)
    (searchParams : list (string * string)) (db : DB) (userName : string)
    (Hs : sessionUserId session = Some uid)
    (Hkey : ~ In uid objectPrototypeKeys) :
  let fetched :=
    responseTasks (fst (GET parseDate regex_i session searchParams db)) in
  exists groups,
    groupByUser userName fetched = Some groups
    /\ (fetched = [] -> groups = [])
    /\ (fetched <> [] -> groups = [mkGroup uid userName fetched]).
Proof.
  intros fetched.
  assert (Hown : forall t, In t fetched -> userId t = uid).
  { intros t. unfold fetched. rewrite (GET_authenticated _ _ _ _ _ _ Hs).
    destruct (getTasksQuerySchema_parse _ _) as [query|e]; [|contradiction].
    destruct (forallb _ _); [|contradiction].
    unfold responseTasks. cbn [fst body]. rewrite In_sortBy, filter_In.
    intros [_ H]. now apply getFilter_userId in H. }
  destruct (fold_groupStep_groupsOf userName fetched [] []
              (groupsOf_nil userName)) as (groups & Hfold & Hnd & Hg & Hall).
  { intros t Ht. now rewrite (Hown t Ht). }
  cbn [app] in *. exists groups. split; [exact Hfold|].
  assert (Hfilter : filter (fun t => String.eqb (userId t) uid) fetched
                    = fetched).
  { clear - Hown. induction fetched as [|x l IH]; simpl; [reflexivity|].
    rewrite (Hown x (or_introl eq_refl)), String.eqb_refl. f_equal.
    apply IH. intros t Ht. apply Hown. now right. }
  assert (Hkeys : forall g, In g groups -> g = mkGroup uid userName fetched).
  { intros g Hgin. destruct (Hg g Hgin) as (Hn & Hne & Ht).
    assert (Hk : g_userId g = uid).
    { destruct (g_tasks g) as [|x l] eqn:E; [contradiction|].
      assert (Hx : In x (filter (fun t => String.eqb (userId t) (g_userId g))
                           fetched)) by (rewrite <- Ht; now left).
      apply filter_In in Hx as [Hx Hxe]. apply String.eqb_eq in Hxe.
      now rewrite <- Hxe, (Hown x Hx). }
    destruct g as [k n l]. cbn in *. subst k n. now rewrite Ht, Hfilter. }
  split.
  - intros Hempty. destruct groups as [|g rest]; [reflexivity|].
    destruct (Hg g (or_introl eq_refl)) as (_ & Hne & Ht).
    rewrite Hempty in Ht. now contradiction Hne.
  - intros Hne. destruct groups as [|g rest].
    + destruct fetched as [|x l]; [contradiction|].
      now specialize (Hall x (or_introl eq_refl)).
    + rewrite (Hkeys g (or_introl eq_refl)) in *.
      destruct rest as [|g2 rest]; [reflexivity|].
      rewrite (Hkeys g2 (or_intror (or_introl eq_refl))) in Hnd.
      cbn in Hnd. apply NoDup_cons_iff in Hnd as [Hnd _].
      exfalso. apply Hnd. now left.
Qed.

Lemma global_timeline_has_one_user_witness :
  sessionUserId (sessionFor "u1") = Some "u1"
  /\ ~ In "u1" objectPrototypeKeys
  /\ exists groups,
       groupByUser "User"
         (responseTasks
            (fst (GET (fun _ => None) (fun _ => None) (sessionFor "u1")
                    [("scope", "all")] twoUsersDB)))
       = Some groups
       /\ List.length groups = 1%nat.
Proof.
  assert (Hkey : ~ In "u1" objectPrototypeKeys).
  { simpl. intuition discriminate. }
  split; [reflexivity|]. split; [exact Hkey|].
  destruct (global_timeline_has_one_user (fun _ => None) (fun _ => None)
              (sessionFor "u1") "u1" [("scope", "all")] twoUsersDB "User"
              eq_refl Hkey) as (groups & Hgroups & _ & H).
  exists groups. split; [exact Hgroups|].
  rewrite H; [reflexivity|]. vm_compute. discriminate.
Defined.
